(** * The parallel compilation pipeline of roblox-ts

    A shallow embedding of
    - [src/Project/functions/compileFilesParallelPhase2.ts]
      (sequential transform, then render), and
    - [compileAndWriteFilesParallel] (plugin step, transform and render,
      batched write stage, statistics),
    followed by the properties of the staged pipeline.

    Conventions of the embedding.
    - An [assert(..)] that fails throws: functions that contain one return
      an [option], [None] standing for the exception.
    - The collaborators that live outside the sources (TypeScript program,
      transformer, renderer, path translator, plugin transformers) are the
      fields of the class [Collaborators]; every theorem holds for every
      instance.  They are taken as total functions.
    - The file system is a finite map from paths to file contents.  A file
      content is the string [fs.readFile(p, "utf8")] yields, and
      [fs.outputFile] stores the string it is given; directories are
      implicit in the paths.
    - The write tasks of one batch are run in the order of the batch.  The
      tasks of the source are promises that are all started at once and
      interleave at their awaits; on pairwise distinct destinations each
      task only touches its own path and decides on it alone, so that the
      order of the tasks does not matter: see [writeTask_other],
      [writeAll_decided_at_start] and [writeBatch_permutation].  When two
      tasks of a batch share a destination, the checks of the source may
      all come before the writes, and the written paths may differ from
      those of [writeBatch]: the embedding is exact on pairwise distinct
      destinations only.  A property that depends on the order of the
      tasks is stated with that hypothesis, [NoDup] of the destinations;
      the others hold however the tasks interleave. *)

From stdpp Require Import gmap strings list fin_maps.
From Stdlib Require Import ZArith.

Local Open Scope Z_scope.
Local Open Scope nat_scope.

(** ** Data model *)

(** [ts.DiagnosticCategory] *)
Inductive DiagnosticCategory := Warning | Error | Suggestion | Message.

(** [ts.Diagnostic], with the fields the pipeline can observe. *)
Record Diagnostic := mkDiagnostic {
  category : DiagnosticCategory;
  code : Z;
  file : option string;
  messageText : string;
}.

(** [ts.SourceFile] *)
Record SourceFile := mkSourceFile {
  fileName : string;
  text : string;
}.

(** [d => d.category === ts.DiagnosticCategory.Error] *)
Definition isError (d : Diagnostic) : bool :=
  match category d with
  | Error => true
  | _ => false
  end.

(** [diagnostics.some(d => d.category === ts.DiagnosticCategory.Error)] *)
Definition someError (diagnostics : list Diagnostic) : bool :=
  existsb isError diagnostics.

(** [class LocalDiagnosticCollector] *)
Module LocalDiagnosticCollector.
Definition t := list Diagnostic.
Definition new : t := [].
Definition addDiagnostic (d : Diagnostic) (c : t) : t := c ++ [d].
Definition addDiagnostics (ds : list Diagnostic) (c : t) : t := c ++ ds.
Definition getDiagnostics (c : t) : list Diagnostic := c.
Definition hasErrors (c : t) : bool := someError c.
End LocalDiagnosticCollector.

(** Modelled from the spec: [TSTransformer/classes/DiagnosticService] is
    imported by the sources but is not among them.  The spec describes it
    as the single process-wide sink the transformer reports through, which
    the transform stage drains after each unit: a list of diagnostics,
    [flush] returning its content and leaving it empty. *)
Module DiagnosticService.
Definition t := list Diagnostic.
Definition addDiagnostics (ds : list Diagnostic) (s : t) : t := s ++ ds.
Definition flush (s : t) : list Diagnostic * t := (s, []).
Definition hasErrors (s : t) : bool := someError s.
End DiagnosticService.

(** [interface CompileResultWithAST] *)
Record CompileResultWithAST (AST : Type) := mkCompileResultWithAST {
  ast_sourceFile : SourceFile;
  luauAST : option AST;
  ast_diagnostics : list Diagnostic;
}.
Arguments mkCompileResultWithAST {AST} _ _ _.
Arguments ast_sourceFile {AST} _.
Arguments luauAST {AST} _.
Arguments ast_diagnostics {AST} _.

(** [interface CompileResult] *)
Record CompileResult := mkCompileResult {
  sourceFile : SourceFile;
  source : option string;
  diagnostics : list Diagnostic;
}.

(** A node returned by [ts.transformNodes]: a source file or something
    else ([ts.isSourceFile] tells them apart). *)
Inductive TransformedNode :=
  | NodeSourceFile (sf : SourceFile)
  | NodeOther.

(** The collaborators of the pipeline.  [Program] is [ts.Program],
    [MultiTransformState] the state shared by the transformer calls of a
    run, [Transformer] a custom TypeScript transformer and
    [TransformerWatcher] the language-service watcher of the plugin step. *)
Class Collaborators := {
  Program : Type;
  LuauAST : Type;
  MultiTransformState : Type;
  Transformer : Type;
  TransformerWatcher : Type;
  (** [program.getSourceFile(fileName)] *)
  getSourceFile : Program → string → option SourceFile;
  (** [ts.getPreEmitDiagnostics(program, sourceFile)] *)
  getPreEmitDiagnostics : Program → SourceFile → list Diagnostic;
  (** [getCustomPreEmitDiagnostics(data, sourceFile)] *)
  getCustomPreEmitDiagnostics : SourceFile → list Diagnostic;
  (** [transformSourceFile(new TransformState(..), sourceFile)]: returns
      the AST; it may update the shared transform state and report through
      the diagnostic sink. *)
  transformSourceFile :
    Program → SourceFile → MultiTransformState → DiagnosticService.t →
    LuauAST * MultiTransformState * DiagnosticService.t;
  (** [renderAST(luauAST)] *)
  renderAST : LuauAST → string;
  (** [pathTranslator.getOutputPath(fileName)] *)
  getOutputPath : string → string;
  (** [pathTranslator.getOutputTransformedPath(fileName)] *)
  getOutputTransformedPath : string → string;
  (** [flattenIntoTransformers(createTransformerList(program,
      getPluginConfigs(data.tsConfigPath), data.projectPath))] *)
  createTransformers : Program → list Transformer;
  (** [ts.transformNodes(.., sourceFiles, transformers, false)]: the
      diagnostics (possibly undefined) and the transformed nodes. *)
  transformNodes :
    list SourceFile → list Transformer →
    option (list Diagnostic) * list TransformedNode;
  (** [ts.createPrinter().printFile(sourceFile)] *)
  printFile : SourceFile → string;
  (** [createTransformerWatcher(program)] and its [updateFile] and
      [service.getProgram()] *)
  createTransformerWatcher : Program → TransformerWatcher;
  updateFile : TransformerWatcher → string → string → TransformerWatcher;
  watcherProgram : TransformerWatcher → Program;
}.

(** The mutable state a run works on, apart from the file system. *)
Record RunState `{Collaborators} := mkRunState {
  diagnosticSink : DiagnosticService.t;
  multiTransformState : MultiTransformState;
  transformerWatcher : option TransformerWatcher;
}.

Section TransformAndRender.
Context `{C : Collaborators}.

(** ** compileFilesParallelPhase2.ts *)

(** [compileSingleFileToAST] *)
Definition compileSingleFileToAST
    (sourceFile : SourceFile) (program : Program) (st : RunState)
    : CompileResultWithAST LuauAST * RunState :=
  let localDiagnostics := LocalDiagnosticCollector.new in
  let localDiagnostics :=
    LocalDiagnosticCollector.addDiagnostics
      (getPreEmitDiagnostics program sourceFile) localDiagnostics in
  let localDiagnostics :=
    LocalDiagnosticCollector.addDiagnostics
      (getCustomPreEmitDiagnostics sourceFile) localDiagnostics in
  if LocalDiagnosticCollector.hasErrors localDiagnostics then
    (mkCompileResultWithAST sourceFile None
       (LocalDiagnosticCollector.getDiagnostics localDiagnostics), st)
  else
    let '(ast, mts, sink) :=
      transformSourceFile program sourceFile
        (multiTransformState st) (diagnosticSink st) in
    let '(transformDiagnostics, sink) := DiagnosticService.flush sink in
    let localDiagnostics :=
      LocalDiagnosticCollector.addDiagnostics
        transformDiagnostics localDiagnostics in
    let st := mkRunState _ sink mts (transformerWatcher st) in
    if LocalDiagnosticCollector.hasErrors localDiagnostics then
      (mkCompileResultWithAST sourceFile None
         (LocalDiagnosticCollector.getDiagnostics localDiagnostics), st)
    else
      (mkCompileResultWithAST sourceFile (Some ast)
         (LocalDiagnosticCollector.getDiagnostics localDiagnostics), st).

(** Step 1 of [compileFilesParallelPhase2]: the [for] loop over
    [sourceFiles].  [rest] is [sourceFiles] from index [i] on and
    [astResults] the array pushed to so far. *)
Fixpoint transformLoop
    (program : Program) (rest : list SourceFile)
    (astResults : list (CompileResultWithAST LuauAST)) (st : RunState)
    : option (list (CompileResultWithAST LuauAST) * RunState) :=
  match rest with
  | [] => Some (astResults, st)
  | sf_i :: rest =>
    match getSourceFile program (fileName sf_i) with
    | None => None (* assert(sourceFile) *)
    | Some sourceFile =>
      let '(result, st) := compileSingleFileToAST sourceFile program st in
      let astResults := astResults ++ [result] in
      if someError (ast_diagnostics result) then
        Some (astResults, st) (* break *)
      else transformLoop program rest astResults st
    end
  end.

(** The callback of [astResults.map] in step 2. *)
Definition renderResult (astResult : CompileResultWithAST LuauAST)
    : CompileResult :=
  match luauAST astResult with
  | None =>
    mkCompileResult (ast_sourceFile astResult) None
      (ast_diagnostics astResult)
  | Some ast =>
    let source := renderAST ast in
    mkCompileResult (ast_sourceFile astResult) (Some source)
      (ast_diagnostics astResult)
  end.

(** Step 2 of [compileFilesParallelPhase2]: [astResults.map(..)].  The
    variant that wraps each rendering in a promise and awaits
    [Promise.all] returns the same array: [Promise.all] keeps the order of
    its tasks. *)
Definition renderStage (astResults : list (CompileResultWithAST LuauAST))
    : list CompileResult :=
  map renderResult astResults.

(** [compileFilesParallelPhase2] *)
Definition compileFilesParallelPhase2
    (program : Program) (sourceFiles : list SourceFile) (st : RunState)
    : option (list CompileResult * RunState) :=
  match transformLoop program sourceFiles [] st with
  | None => None
  | Some (astResults, st) => Some (renderStage astResults, st)
  end.

(** [getCompilationStats] *)
Record CompilationStats := mkCompilationStats {
  total : nat;
  successful : nat;
  failed : nat;
  totalDiagnostics : nat;
}.

Definition hasSource (r : CompileResult) : bool :=
  match source r with Some _ => true | None => false end.

Definition getCompilationStats (results : list CompileResult)
    : CompilationStats :=
  let successful := length (filter (λ r, hasSource r = true) results) in
  let failed := length (filter (λ r, hasSource r = false) results) in
  let totalDiagnostics :=
    foldl (λ sum r, sum + length (diagnostics r)) 0 results in
  mkCompilationStats (length results) successful failed totalDiagnostics.

End TransformAndRender.

(** ** compileAndWriteFilesParallel *)

(** The file system: the content of every existing path. *)
Abbreviation FS := (gmap string string).

Module fs.
(** [fs.pathExists(p)] *)
Definition pathExists (p : string) (files : FS) : bool :=
  bool_decide (is_Some (files !! p)).
(** [fs.readFile(p, "utf8")]; it rejects when the path does not exist. *)
Definition readFile (p : string) (files : FS) : option string := files !! p.
(** [fs.outputFile(p, data)] and [fs.outputFileSync(p, data)]: write the
    file, creating its parent directories. *)
Definition outputFile (p : string) (data : string) (files : FS) : FS :=
  <[p := data]> files.
End fs.

(** The fields of [data.projectOptions] and [compilerOptions] the
    orchestrator reads. *)
Record ProjectOptions := mkProjectOptions {
  writeOnlyChanged : bool;
  writeTransformedFiles : bool;
}.

Record CompilerOptions := mkCompilerOptions {
  plugins : option (list string);
}.

(** [ts.EmitResult]; [emittedFiles] is left out of the object on the
    paths that skip the emit. *)
Record EmitResult := mkEmitResult {
  emitSkipped : bool;
  emit_diagnostics : list Diagnostic;
  emittedFiles : option (list string);
}.

(** A JavaScript number as far as the statistics need it: a quotient of
    integers, an infinity or NaN. *)
Inductive JSNumber :=
  | JSFinite (numerator : Z) (denominator : positive)
  | JSInfinity (negative : bool)
  | JSNaN.

(** [a / b] on numbers holding an integer [a] and a count [b]; the
    rounding of a finite quotient to a double is not represented. *)
Definition jsDivide (a : Z) (b : nat) : JSNumber :=
  match b with
  | O => if (a =? 0)%Z then JSNaN else JSInfinity (a <? 0)%Z
  | S b' => JSFinite a (Pos.of_succ_nat b')
  end.

(** What the statistics block prints with [console.log]. *)
Record RunReport := mkRunReport {
  stats : CompilationStats;
  totalTime : Z;
  averageTime : JSNumber;
  writtenFiles : nat;
  skippedFiles : Z;
}.

(** A JavaScript string is truthy unless it is empty. *)
Definition truthy (s : string) : bool :=
  match s with
  | EmptyString => false
  | String _ _ => true
  end.

(** [results.slice(i, j)] for [i ≤ j] *)
Definition slice {A} (i j : nat) (l : list A) : list A :=
  take (j - i) (drop i l).

(** [for (let i = 0; i < results.length; i += BATCH_SIZE)
       batches.push(results.slice(i, i + BATCH_SIZE))].
    The loop runs for ever when the batch size is 0; [None] says that the
    fuel ran out. *)
Fixpoint batchLoop {A} (fuel batchSize : nat) (results : list A)
    (i : nat) (batches : list (list A)) : option (list (list A)) :=
  if bool_decide (i < length results) then
    match fuel with
    | O => None
    | S fuel =>
      batchLoop fuel batchSize results (i + batchSize)
        (batches ++ [slice i (i + batchSize) results])
    end
  else Some batches.

Definition makeBatches {A} (batchSize : nat) (results : list A)
    : option (list (list A)) :=
  batchLoop (length results) batchSize results 0 [].

Definition BATCH_SIZE : nat := 50.

Section Orchestrator.
Context `{C : Collaborators}.

(** The state of a run after step 0. *)
Record PluginOutcome := mkPluginOutcome {
  proxyProgram : Program;
  transformedSourceFiles : list SourceFile;
  plugin_state : RunState;
  plugin_files : FS;
}.

(** The loop over [transformResult.transformed] in step 0. *)
Fixpoint reprintLoop (data : ProjectOptions)
    (transformed : list TransformedNode) (watcher : TransformerWatcher)
    (files : FS) (newSourceFiles : list SourceFile)
    : TransformerWatcher * FS * list SourceFile :=
  match transformed with
  | [] => (watcher, files, newSourceFiles)
  | NodeSourceFile sf :: transformed =>
    let source := printFile sf in
    let watcher := updateFile watcher (fileName sf) source in
    let files :=
      if writeTransformedFiles data then
        fs.outputFile (getOutputTransformedPath (fileName sf)) source files
      else files in
    reprintLoop data transformed watcher files (newSourceFiles ++ [sf])
  | NodeOther :: transformed =>
    reprintLoop data transformed watcher files newSourceFiles
  end.

(** [compilerOptions.plugins && compilerOptions.plugins.length > 0] *)
Definition pluginsConfigured (compilerOptions : CompilerOptions) : bool :=
  match plugins compilerOptions with
  | Some ps => bool_decide (0 < length ps)
  | None => false
  end.

(** Step 0 of [compileAndWriteFilesParallel]: the custom TypeScript
    transformers. *)
Definition applyCustomTransformers
    (program : Program) (data : ProjectOptions)
    (compilerOptions : CompilerOptions) (sourceFiles : list SourceFile)
    (st : RunState) (files : FS) : option PluginOutcome :=
  let unchanged := mkPluginOutcome program sourceFiles st files in
  if pluginsConfigured compilerOptions then
    let transformers := createTransformers program in
    if bool_decide (0 < length transformers) then
      (* data.transformerWatcher ??= createTransformerWatcher(program) *)
      let watcher :=
        default (createTransformerWatcher program) (transformerWatcher st) in
      let '(transformDiagnostics, transformed) :=
        transformNodes sourceFiles transformers in
      let sink :=
        match transformDiagnostics with
        | Some ds => DiagnosticService.addDiagnostics ds (diagnosticSink st)
        | None => diagnosticSink st
        end in
      let '(watcher, files, newSourceFiles) :=
        reprintLoop data transformed watcher files [] in
      let proxyProgram := watcherProgram watcher in
      (* newSourceFiles.map(sf => { .. assert(updated); return updated }) *)
      match mapM (λ sf, getSourceFile proxyProgram (fileName sf))
              newSourceFiles with
      | None => None
      | Some transformedSourceFiles =>
        Some (mkPluginOutcome proxyProgram transformedSourceFiles
                (mkRunState _ sink (multiTransformState st) (Some watcher))
                files)
      end
    else Some unchanged
  else Some unchanged.

(** One write task of step 3: the destination it wrote, if any, and the
    file system it leaves. *)
Definition writeTask (data : ProjectOptions) (result : CompileResult)
    (files : FS) : option string * FS :=
  match source result with
  | Some src =>
    if truthy src then
      let outPath := getOutputPath (fileName (sourceFile result)) in
      let shouldWrite :=
        negb (writeOnlyChanged data)
        || negb (fs.pathExists outPath files)
        || negb (bool_decide (fs.readFile outPath files = Some src)) in
      if shouldWrite then (Some outPath, fs.outputFile outPath src files)
      else (None, files)
    else (None, files)
  | None => (None, files)
  end.

(** [await Promise.all(batch.map(task))]: the values of the tasks in the
    order of the batch. *)
Fixpoint writeBatch (data : ProjectOptions) (batch : list CompileResult)
    (files : FS) : list (option string) * FS :=
  match batch with
  | [] => ([], files)
  | result :: batch =>
    let '(p, files) := writeTask data result files in
    let '(written, files) := writeBatch data batch files in
    (p :: written, files)
  end.

(** [for (const batch of batches) { .. emittedFiles.push(...) }] *)
Fixpoint writeBatches (data : ProjectOptions)
    (batches : list (list CompileResult)) (emittedFiles : list string)
    (files : FS) : list string * FS :=
  match batches with
  | [] => (emittedFiles, files)
  | batch :: batches =>
    let '(written, files) := writeBatch data batch files in
    writeBatches data batches (emittedFiles ++ omap id written) files
  end.

(** What a run returns and leaves behind. *)
Record RunOutcome := mkRunOutcome {
  emitResult : EmitResult;
  report : option RunReport;
  final_state : RunState;
  final_files : FS;
}.

(** [compileAndWriteFilesParallel], the variant with batched writes.
    [startTime] and [endTime] are the two readings of [Date.now()]. *)
Definition compileAndWriteFilesParallel
    (program : Program) (data : ProjectOptions)
    (compilerOptions : CompilerOptions) (sourceFiles : list SourceFile)
    (startTime endTime : Z) (st : RunState) (files : FS)
    : option RunOutcome :=
  match applyCustomTransformers program data compilerOptions sourceFiles
          st files with
  | None => None
  | Some step0 =>
    let st := plugin_state step0 in
    let files := plugin_files step0 in
    if DiagnosticService.hasErrors (diagnosticSink st) then
      let '(flushed, sink) := DiagnosticService.flush (diagnosticSink st) in
      Some (mkRunOutcome (mkEmitResult true flushed None) None
              (mkRunState _ sink (multiTransformState st)
                 (transformerWatcher st))
              files)
    else
      match compileFilesParallelPhase2 (proxyProgram step0)
              (transformedSourceFiles step0) st with
      | None => None
      | Some (results, st) =>
        let allDiagnostics := concat (map diagnostics results) in
        let hasErrors := someError allDiagnostics in
        if hasErrors then
          Some (mkRunOutcome (mkEmitResult true allDiagnostics None) None
                  st files)
        else
          match makeBatches BATCH_SIZE results with
          | None => None
          | Some batches =>
            let '(emittedFiles, files) :=
              writeBatches data batches [] files in
            let totalTime := (endTime - startTime)%Z in
            let stats :=
              mkCompilationStats (length results)
                (length (filter (λ r, hasSource r = true) results))
                (length (filter (λ r, hasSource r = false) results))
                (length allDiagnostics) in
            let report :=
              mkRunReport stats totalTime
                (jsDivide totalTime (total stats))
                (length emittedFiles)
                (Z.of_nat (successful stats)
                 - Z.of_nat (length emittedFiles))%Z in
            Some (mkRunOutcome
                    (mkEmitResult false allDiagnostics (Some emittedFiles))
                    (Some report) st files)
          end
      end
  end.

(** The second variant of [compileAndWriteFilesParallel]: no plugin step
    and one [Promise.all] over all write tasks. *)
Definition compileAndWriteFilesParallel_unbatched
    (program : Program) (data : ProjectOptions)
    (sourceFiles : list SourceFile)
    (startTime endTime : Z) (st : RunState) (files : FS)
    : option RunOutcome :=
  match compileFilesParallelPhase2 program sourceFiles st with
  | None => None
  | Some (results, st) =>
    let allDiagnostics := concat (map diagnostics results) in
    let hasErrors := someError allDiagnostics in
    if hasErrors then
      Some (mkRunOutcome (mkEmitResult true allDiagnostics None) None
              st files)
    else
      let '(written, files) := writeBatch data results files in
      let emittedFiles := omap id written in
      let totalTime := (endTime - startTime)%Z in
      let stats :=
        mkCompilationStats (length results)
          (length (filter (λ r, hasSource r = true) results))
          (length (filter (λ r, hasSource r = false) results))
          (length allDiagnostics) in
      let report :=
        mkRunReport stats totalTime
          (jsDivide totalTime (total stats))
          (length emittedFiles)
          (Z.of_nat (successful stats)
           - Z.of_nat (length emittedFiles))%Z in
      Some (mkRunOutcome
              (mkEmitResult false allDiagnostics (Some emittedFiles))
              (Some report) st files)
  end.

End Orchestrator.

(** ** Notions the properties are stated with *)

(** The collaborators with another renderer. *)
Definition withRenderer (C : Collaborators)
    (render : @LuauAST C → string) : Collaborators := {|
  Program := @Program C;
  LuauAST := @LuauAST C;
  MultiTransformState := @MultiTransformState C;
  Transformer := @Transformer C;
  TransformerWatcher := @TransformerWatcher C;
  getSourceFile := @getSourceFile C;
  getPreEmitDiagnostics := @getPreEmitDiagnostics C;
  getCustomPreEmitDiagnostics := @getCustomPreEmitDiagnostics C;
  transformSourceFile := @transformSourceFile C;
  renderAST := render;
  getOutputPath := @getOutputPath C;
  getOutputTransformedPath := @getOutputTransformedPath C;
  createTransformers := @createTransformers C;
  transformNodes := @transformNodes C;
  printFile := @printFile C;
  createTransformerWatcher := @createTransformerWatcher C;
  updateFile := @updateFile C;
  watcherProgram := @watcherProgram C;
|}.

Section Notions.
Context `{C : Collaborators}.

(** The transform loop as a relation.

    [transformRun program units st results st'] : from state [st], the
    loop over [units] pushes [results] and leaves state [st']. *)
Inductive transformRun (program : Program)
    : list SourceFile → RunState →
      list (CompileResultWithAST LuauAST) → RunState → Prop :=
  | transformRun_done st :
      transformRun program [] st [] st
  | transformRun_break sf rest st sourceFile r st1 :
      getSourceFile program (fileName sf) = Some sourceFile →
      compileSingleFileToAST sourceFile program st = (r, st1) →
      someError (ast_diagnostics r) = true →
      transformRun program (sf :: rest) st [r] st1
  | transformRun_continue sf rest st sourceFile r st1 rs st2 :
      getSourceFile program (fileName sf) = Some sourceFile →
      compileSingleFileToAST sourceFile program st = (r, st1) →
      someError (ast_diagnostics r) = false →
      transformRun program rest st1 rs st2 →
      transformRun program (sf :: rest) st (r :: rs) st2.

Implicit Types (r : CompileResult) (files : FS) (data : ProjectOptions).

(** The destination of a result. *)
Definition outPathOf r : string := getOutputPath (fileName (sourceFile r)).

(** The destination of [r] is missing or holds something else than the
    text of [r]. *)
Definition outdated files r : Prop := files !! outPathOf r ≠ source r.

#[global] Instance outdated_dec files r : Decision (outdated files r) :=
  decide (files !! outPathOf r ≠ source r).

(** The text of [r] is present and is not the empty string. *)
Definition hasText r : bool :=
  match source r with
  | Some src => truthy src
  | None => false
  end.

(** What steps 0 to 2 hand to the write stage when no error ends the run
    before it: the rendered results, the state and the files. *)
Definition writeStageInput
    (program : Program) data (compilerOptions : CompilerOptions)
    (sourceFiles : list SourceFile) (st : RunState) files
    : option (list CompileResult * RunState * FS) :=
  match applyCustomTransformers program data compilerOptions sourceFiles
          st files with
  | None => None
  | Some step0 =>
    if DiagnosticService.hasErrors (diagnosticSink (plugin_state step0))
    then None
    else
      match compileFilesParallelPhase2 (proxyProgram step0)
              (transformedSourceFiles step0) (plugin_state step0) with
      | None => None
      | Some (results, st') =>
        if someError (concat (map diagnostics results)) then None
        else Some (results, st', plugin_files step0)
      end
  end.

(** The outcome of a run that reaches the write stage with [results]. *)
Definition emitOutcome data (startTime endTime : Z)
    (results : list CompileResult) (st : RunState) files : RunOutcome :=
  let written := writeBatch data results files in
  let emitted := omap id written.1 in
  let allDiagnostics := concat (map diagnostics results) in
  let successful := length (filter (λ r, hasSource r = true) results) in
  mkRunOutcome
    (mkEmitResult false allDiagnostics (Some emitted))
    (Some (mkRunReport
             (mkCompilationStats (length results) successful
                (length (filter (λ r, hasSource r = false) results))
                (length allDiagnostics))
             (endTime - startTime)
             (jsDivide (endTime - startTime) (length results))
             (length emitted)
             (Z.of_nat successful - Z.of_nat (length emitted))))
    st written.2.

End Notions.

(** The source file of a node [ts.isSourceFile] accepts. *)
Definition nodeSourceFile (n : TransformedNode) : option SourceFile :=
  match n with
  | NodeSourceFile sf => Some sf
  | NodeOther => None
  end.

(** ** The first phase and the wrapper *)

Section Wrapper.
Context `{C : Collaborators}.

(** [compileFilesParallel] of [compileFilesParallelPhase2.ts]: it calls
    the second phase. *)
Definition compileFilesParallel
    (program : Program) (sourceFiles : list SourceFile) (st : RunState)
    : option (list CompileResult * RunState) :=
  compileFilesParallelPhase2 program sourceFiles st.

End Wrapper.

(** The file of the first phase: each unit is transformed and rendered
    before the next one is looked at. *)
Module Phase1.
Section Phase1.
Context `{C : Collaborators}.

(** [compileSingleFile] *)
Definition compileSingleFile
    (sourceFile : SourceFile) (program : Program) (st : RunState)
    : CompileResult * RunState :=
  let localDiagnostics := LocalDiagnosticCollector.new in
  let localDiagnostics :=
    LocalDiagnosticCollector.addDiagnostics
      (getPreEmitDiagnostics program sourceFile) localDiagnostics in
  let localDiagnostics :=
    LocalDiagnosticCollector.addDiagnostics
      (getCustomPreEmitDiagnostics sourceFile) localDiagnostics in
  if LocalDiagnosticCollector.hasErrors localDiagnostics then
    (mkCompileResult sourceFile None
       (LocalDiagnosticCollector.getDiagnostics localDiagnostics), st)
  else
    let '(ast, mts, sink) :=
      transformSourceFile program sourceFile
        (multiTransformState st) (diagnosticSink st) in
    let '(transformDiagnostics, sink) := DiagnosticService.flush sink in
    let localDiagnostics :=
      LocalDiagnosticCollector.addDiagnostics
        transformDiagnostics localDiagnostics in
    let st := mkRunState _ sink mts (transformerWatcher st) in
    if LocalDiagnosticCollector.hasErrors localDiagnostics then
      (mkCompileResult sourceFile None
         (LocalDiagnosticCollector.getDiagnostics localDiagnostics), st)
    else
      let source := renderAST ast in
      (mkCompileResult sourceFile (Some source)
         (LocalDiagnosticCollector.getDiagnostics localDiagnostics), st).

(** The [for] loop of [compileFilesParallel]; [rest] is [sourceFiles]
    from index [i] on and [results] the array pushed to so far. *)
Fixpoint compileLoop
    (program : Program) (rest : list SourceFile)
    (results : list CompileResult) (st : RunState)
    : option (list CompileResult * RunState) :=
  match rest with
  | [] => Some (results, st)
  | sf_i :: rest =>
    match getSourceFile program (fileName sf_i) with
    | None => None (* assert(sourceFile) *)
    | Some sourceFile =>
      let '(result, st) := compileSingleFile sourceFile program st in
      let results := results ++ [result] in
      if someError (diagnostics result) then
        Some (results, st) (* break *)
      else compileLoop program rest results st
    end
  end.

(** [compileFilesParallel] *)
Definition compileFilesParallel
    (program : Program) (sourceFiles : list SourceFile) (st : RunState)
    : option (list CompileResult * RunState) :=
  compileLoop program sourceFiles [] st.

End Phase1.
End Phase1.

(** ** A small instance of the collaborators

    Used to run the pipeline on concrete inputs.  A program is the list of
    its source files; a file whose text is ["bad"] has a pre-emit error,
    one whose text is ["fail"] makes the transformer report an error, one
    whose text is ["warn"] a warning; the AST of a file is its text and
    the renderer is the identity. *)
Module Toy.

Definition diag (c : DiagnosticCategory) (name msg : string) : Diagnostic :=
  mkDiagnostic c 1%Z (Some name) msg.

Definition lookupFile (program : list SourceFile) (name : string)
    : option SourceFile :=
  List.find (λ sf, String.eqb (fileName sf) name) program.

Definition preEmit (program : list SourceFile) (sf : SourceFile)
    : list Diagnostic :=
  if String.eqb (text sf) "bad" then [diag Error (fileName sf) "pre-emit"]
  else [].

Definition transform (program : list SourceFile) (sf : SourceFile)
    (calls : nat) (sink : DiagnosticService.t)
    : string * nat * DiagnosticService.t :=
  let reported :=
    if String.eqb (text sf) "fail" then
      [diag Error (fileName sf) "transform"]
    else if String.eqb (text sf) "warn" then
      [diag Warning (fileName sf) "transform"]
    else [] in
  (text sf, S calls, sink ++ reported).

Definition collaborators : Collaborators := {|
  Program := list SourceFile;
  LuauAST := string;
  MultiTransformState := nat;
  Transformer := unit;
  TransformerWatcher := list SourceFile;
  getSourceFile := lookupFile;
  getPreEmitDiagnostics := preEmit;
  getCustomPreEmitDiagnostics := λ _, [];
  transformSourceFile := transform;
  renderAST := λ ast, ast;
  getOutputPath := λ name, ("out/" +:+ name)%string;
  getOutputTransformedPath := λ name, ("transformed/" +:+ name)%string;
  createTransformers := λ _, [tt];
  transformNodes := λ sfs _, (Some [], map NodeSourceFile sfs);
  printFile := text;
  createTransformerWatcher := λ program, program;
  updateFile := λ w name src, mkSourceFile name src :: w;
  watcherProgram := λ w, w;
|}.

Definition A := mkSourceFile "a.ts" "export const x = 1;".
Definition B := mkSourceFile "b.ts" "fail".
Definition C := mkSourceFile "c.ts" "export const y = 2;".
Definition D := mkSourceFile "d.ts" "".
Definition W := mkSourceFile "w.ts" "warn".

Definition program : @Program collaborators := [A; B; C; D; W].
Definition st0 : @RunState collaborators := mkRunState collaborators [] 0 None.
Definition noPlugins := mkCompilerOptions None.
Definition changedOnly := mkProjectOptions true false.
Definition always := mkProjectOptions false false.

End Toy.

(** ** The pipeline on concrete inputs *)

(** Units [A, B, C] where the transformer reports an error on [B]: a
    result for [A] with its AST, a result for [B] without, none for [C]. *)
Example fail_fast_ABC :
  (λ '(rs, _), map (λ r, (fileName (ast_sourceFile r), luauAST r,
                          someError (ast_diagnostics r))) rs)
    <$> transformLoop Toy.program [Toy.A; Toy.B; Toy.C] [] Toy.st0
  = Some [("a.ts", Some "export const x = 1;", false);
          ("b.ts", None, true)]%string.
Proof. reflexivity. Qed.

(** A unit the program does not know trips the assertion. *)
Example unknown_unit_throws :
  transformLoop Toy.program [mkSourceFile "z.ts" ""] [] Toy.st0 = None.
Proof. reflexivity. Qed.

Example batches_of_five :
  makeBatches 2 [1; 2; 3; 4; 5] = Some [[1; 2]; [3; 4]; [5]].
Proof. reflexivity. Qed.

(** The loop with batch size 0 never advances. *)
Example batches_of_size_zero : makeBatches 0 [1; 2; 3] = None.
Proof. reflexivity. Qed.

(** Two units, no destination yet, changes only: both are written and
    none skipped; the same run again writes none and skips both. *)
Example first_and_second_run :
  ∃ out1 out2,
    compileAndWriteFilesParallel Toy.program Toy.changedOnly Toy.noPlugins
      [Toy.A; Toy.C] 0 10 Toy.st0 ∅ = Some out1
    ∧ (λ rep, (writtenFiles rep, skippedFiles rep)) <$> report out1
      = Some (2, 0%Z)
    ∧ compileAndWriteFilesParallel Toy.program Toy.changedOnly Toy.noPlugins
        [Toy.A; Toy.C] 20 30 (final_state out1) (final_files out1)
      = Some out2
    ∧ (λ rep, (writtenFiles rep, skippedFiles rep)) <$> report out2
      = Some (0, 2%Z).
Proof.
  eexists _, _. split; [vm_compute; reflexivity|].
  split; [reflexivity|]. split; [vm_compute; reflexivity|]. reflexivity.
Qed.

(** With a plugin configured and [writeTransformedFiles] set, step 0
    writes the transformed source next to the compiled output. *)
Example run_with_plugin :
  (λ out, (emittedFiles (emitResult out),
           final_files out !! "transformed/a.ts"%string,
           final_files out !! "out/a.ts"%string))
    <$> compileAndWriteFilesParallel Toy.program
          (mkProjectOptions true true) (mkCompilerOptions (Some ["p"%string]))
          [Toy.A] 0 10 Toy.st0 ∅
  = Some (Some ["out/a.ts"], Some "export const x = 1;",
          Some "export const x = 1;")%string.
Proof. vm_compute. reflexivity. Qed.

(** An error left in the sink ends the run before any transform. *)
Example run_with_stale_error :
  (λ out, (emitSkipped (emitResult out),
           length (emit_diagnostics (emitResult out)),
           diagnosticSink (final_state out)))
    <$> compileAndWriteFilesParallel Toy.program Toy.changedOnly
          Toy.noPlugins [Toy.A] 0 10
          (mkRunState Toy.collaborators
             [Toy.diag Error "x.ts" "left over"] 0 None) ∅
  = Some (true, 1, []).
Proof. reflexivity. Qed.

(** * Properties *)

(** ** Diagnostics *)

Lemma someError_app (ds1 ds2 : list Diagnostic) :
  someError (ds1 ++ ds2) = someError ds1 || someError ds2.
Proof. unfold someError. apply existsb_app. Qed.

Lemma someError_true (ds : list Diagnostic) :
  someError ds = true ↔ ∃ d, d ∈ ds ∧ category d = Error.
Proof.
  unfold someError. rewrite existsb_exists. split.
  - intros (d & Hin & Hd). exists d. split; [by apply list_elem_of_In|].
    unfold isError in Hd. by destruct (category d).
  - intros (d & Hin & Hd). exists d. split; [by apply list_elem_of_In|].
    unfold isError. by rewrite Hd.
Qed.

Lemma someError_concat (dss : list (list Diagnostic)) :
  someError (concat dss) = false ↔ Forall (λ ds, someError ds = false) dss.
Proof.
  induction dss as [|ds dss IH]; simpl.
  - split; [constructor | done].
  - rewrite someError_app, orb_false_iff, Forall_cons. by rewrite IH.
Qed.

Section TransformProps.
Context `{C : Collaborators}.

(** ** The transform of one unit *)

(** A result of [compileSingleFileToAST] has no AST exactly when its
    diagnostics hold an error. *)
Lemma compileSingleFileToAST_invariant sourceFile program st :
  let r := (compileSingleFileToAST sourceFile program st).1 in
  luauAST r = None ↔ someError (ast_diagnostics r) = true.
Proof.
  unfold compileSingleFileToAST, LocalDiagnosticCollector.hasErrors,
    LocalDiagnosticCollector.getDiagnostics, DiagnosticService.flush.
  destruct (someError _) eqn:Hpre; simpl; [done|].
  destruct (transformSourceFile _ _ _ _) as [[ast mts] sink].
  destruct (someError (LocalDiagnosticCollector.addDiagnostics sink _))
    eqn:Hpost; simpl; rewrite ?Hpost; split; congruence.
Qed.

Lemma compileSingleFileToAST_sourceFile sourceFile program st :
  ast_sourceFile (compileSingleFileToAST sourceFile program st).1
  = sourceFile.
Proof.
  unfold compileSingleFileToAST.
  destruct (LocalDiagnosticCollector.hasErrors _); [done|].
  destruct (transformSourceFile _ _ _ _) as [[ast mts] sink]. simpl.
  by destruct (LocalDiagnosticCollector.hasErrors _).
Qed.


(** The accumulator only collects: the loop started with [acc] pushes
    after [acc] what it pushes when started empty. *)
Lemma transformLoop_acc program rest acc st :
  transformLoop program rest acc st
  = prod_map (app acc) id <$> transformLoop program rest [] st.
Proof.
  revert acc st. induction rest as [|sf rest IH]; intros acc st; simpl.
  - by rewrite app_nil_r.
  - destruct (getSourceFile program (fileName sf)) as [sourceFile|];
      [|done].
    destruct (compileSingleFileToAST sourceFile program st) as [r st1].
    destruct (someError (ast_diagnostics r)); [done|].
    rewrite (IH (acc ++ [r])), (IH [r]).
    destruct (transformLoop program rest [] st1) as [[rs st2]|]; simpl;
      [|done].
    by rewrite <- app_assoc.
Qed.

Lemma transformLoop_cons program sf rest st :
  transformLoop program (sf :: rest) [] st
  = match getSourceFile program (fileName sf) with
    | None => None
    | Some sourceFile =>
      let '(r, st1) := compileSingleFileToAST sourceFile program st in
      if someError (ast_diagnostics r) then Some ([r], st1)
      else prod_map (cons r) id <$> transformLoop program rest [] st1
    end.
Proof.
  simpl. destruct (getSourceFile program (fileName sf)); [|done].
  destruct (compileSingleFileToAST _ _ _) as [r st1].
  destruct (someError (ast_diagnostics r)); [done|].
  by rewrite transformLoop_acc.
Qed.

Lemma transformLoop_run program units st rs st' :
  transformLoop program units [] st = Some (rs, st')
  ↔ transformRun program units st rs st'.
Proof.
  split.
  - revert st rs st'. induction units as [|sf rest IH]; intros st rs st'.
    + simpl. intros [= <- <-]. constructor.
    + rewrite transformLoop_cons.
      destruct (getSourceFile program (fileName sf)) as [sourceFile|] eqn:Hsf;
        [|done].
      destruct (compileSingleFileToAST sourceFile program st) as [r st1]
        eqn:Hr.
      destruct (someError (ast_diagnostics r)) eqn:He.
      * intros [= <- <-]. by eapply transformRun_break.
      * destruct (transformLoop program rest [] st1) as [[rs1 st2]|] eqn:Hl;
          simpl; [|done].
        intros [= <- <-]. eapply transformRun_continue; eauto.
  - induction 1 as [st|sf rest st sourceFile r st1 Hsf Hr He
                     |sf rest st sourceFile r st1 rs st2 Hsf Hr He _ IH].
    + done.
    + by rewrite transformLoop_cons, Hsf, Hr, He.
    + by rewrite transformLoop_cons, Hsf, Hr, He, IH.
Qed.

(** The loop throws only at a unit the program does not know. *)
Lemma transformLoop_total program units st :
  Forall (λ sf, is_Some (getSourceFile program (fileName sf))) units →
  ∃ rs st', transformLoop program units [] st = Some (rs, st').
Proof.
  intros Hall. revert st.
  induction Hall as [|sf rest [sourceFile Hsf] _ IH]; intros st.
  - by exists [], st.
  - rewrite transformLoop_cons, Hsf.
    destruct (compileSingleFileToAST sourceFile program st) as [r st1].
    destruct (someError (ast_diagnostics r)); [by eauto|].
    destruct (IH st1) as (rs & st2 & ->). simpl. eauto.
Qed.

Lemma transformRun_length program units st rs st' :
  transformRun program units st rs st' → length rs ≤ length units.
Proof. induction 1; simpl; lia. Qed.

(** The units from the first error on play no part. *)
Lemma transformRun_take program units st rs st' :
  transformRun program units st rs st' →
  transformRun program (take (length rs) units) st rs st'.
Proof.
  induction 1; simpl; [constructor|by eapply transformRun_break|].
  eapply transformRun_continue; eauto.
Qed.

Lemma transformRun_stopped program units st rs st' r later :
  transformRun program units st rs st' →
  last rs = Some r → someError (ast_diagnostics r) = true →
  transformRun program (take (length rs) units ++ later) st rs st'.
Proof.
  induction 1 as [st|sf rest st sourceFile r1 st1 Hsf Hr He
                 |sf rest st sourceFile r1 st1 rs st2 Hsf Hr He Hrun IH];
    simpl.
  - done.
  - intros _ _. by eapply transformRun_break.
  - intros Hlast Herr. eapply transformRun_continue; eauto.
    apply IH; [|done].
    destruct rs as [|r2 rs]; [|done].
    simpl in Hlast. congruence.
Qed.

(** Each result is the transform of the unit at its index, run in the
    state the units before it left. *)
Lemma transformRun_step program units st rs st' i r :
  transformRun program units st rs st' →
  rs !! i = Some r →
  ∃ sf sourceFile st_i,
    units !! i = Some sf ∧
    getSourceFile program (fileName sf) = Some sourceFile ∧
    transformRun program (take i units) st (take i rs) st_i ∧
    r = (compileSingleFileToAST sourceFile program st_i).1.
Proof.
  intros Hrun. revert i.
  induction Hrun as [st|sf rest st sourceFile r1 st1 Hsf Hr He
                    |sf rest st sourceFile r1 st1 rs st2 Hsf Hr He Hrun IH];
    intros i Hi.
  - done.
  - destruct i as [|i]; [|done]. simpl in Hi. injection Hi as <-.
    exists sf, sourceFile, st. rewrite Hr. repeat split; [done|constructor].
  - destruct i as [|i].
    + simpl in Hi. injection Hi as <-.
      exists sf, sourceFile, st. rewrite Hr.
      repeat split; [done|constructor].
    + simpl in Hi. destruct (IH i Hi) as (sf' & sourceFile' & st_i & ?&?&?&?).
      exists sf', sourceFile', st_i. repeat split; try done.
      simpl. eapply transformRun_continue; eauto.
Qed.

(** Every result before the last one is free of errors. *)
Lemma transformRun_before_last program units st rs st' i r :
  transformRun program units st rs st' →
  rs !! i = Some r → S i < length rs →
  someError (ast_diagnostics r) = false.
Proof.
  intros Hrun. revert i.
  induction Hrun as [st|sf rest st sourceFile r1 st1 Hsf Hr He
                    |sf rest st sourceFile r1 st1 rs st2 Hsf Hr He Hrun IH];
    intros i Hi Hlt; simpl in *.
  - done.
  - lia.
  - destruct i as [|i]; simpl in Hi.
    + congruence.
    + apply (IH i Hi). lia.
Qed.

(** The loop ends in one of two ways. *)
Lemma transformRun_end program units st rs st' :
  transformRun program units st rs st' →
  (Forall (λ r, someError (ast_diagnostics r) = false) rs
   ∧ length rs = length units)
  ∨ (∃ r, last rs = Some r ∧ someError (ast_diagnostics r) = true).
Proof.
  induction 1 as [st|sf rest st sourceFile r1 st1 Hsf Hr He
                 |sf rest st sourceFile r1 st1 rs st2 Hsf Hr He Hrun IH].
  - left. by split.
  - right. by exists r1.
  - destruct IH as [[Hall Hlen]|(r & Hlast & Herr)].
    + left. split; [by constructor|simpl; lia].
    + right. exists r. split; [|done].
      destruct rs; [done|]. done.
Qed.

Lemma transformRun_invariant program units st rs st' r :
  transformRun program units st rs st' → r ∈ rs →
  luauAST r = None ↔ someError (ast_diagnostics r) = true.
Proof.
  induction 1 as [st|sf rest st sourceFile r1 st1 Hsf Hr He
                 |sf rest st sourceFile r1 st1 rs st2 Hsf Hr He Hrun IH].
  - by intros ?%elem_of_nil.
  - intros ->%list_elem_of_singleton.
    pose proof (compileSingleFileToAST_invariant sourceFile program st) as Hi.
    by rewrite Hr in Hi.
  - intros [->|Hin]%elem_of_cons; [|by apply IH].
    pose proof (compileSingleFileToAST_invariant sourceFile program st) as Hi.
    by rewrite Hr in Hi.
Qed.

End TransformProps.

(** ** The render stage *)


Section RenderProps.
Context `{C : Collaborators}.

Lemma renderResult_fields (a : CompileResultWithAST LuauAST) :
  sourceFile (renderResult a) = ast_sourceFile a
  ∧ diagnostics (renderResult a) = ast_diagnostics a
  ∧ source (renderResult a) = renderAST <$> luauAST a.
Proof. unfold renderResult. by destruct (luauAST a). Qed.

Lemma renderStage_lookup (astResults : list (CompileResultWithAST LuauAST))
    i :
  renderStage astResults !! i = renderResult <$> astResults !! i.
Proof. unfold renderStage. apply list_lookup_fmap. Qed.

Lemma renderStage_elem (astResults : list (CompileResultWithAST LuauAST))
    r :
  r ∈ renderStage astResults ↔ ∃ a, r = renderResult a ∧ a ∈ astResults.
Proof. unfold renderStage. apply list_elem_of_fmap. Qed.

Lemma renderStage_diagnostics
    (astResults : list (CompileResultWithAST LuauAST)) :
  map diagnostics (renderStage astResults) = map ast_diagnostics astResults.
Proof.
  unfold renderStage. rewrite map_map. apply map_ext.
  intros a. apply renderResult_fields.
Qed.

Lemma compileFilesParallelPhase2_stages program units st :
  compileFilesParallelPhase2 program units st
  = prod_map renderStage id <$> transformLoop program units [] st.
Proof.
  unfold compileFilesParallelPhase2.
  by destruct (transformLoop program units [] st) as [[rs st']|].
Qed.

(** A rendered result has no text exactly when it holds an error. *)
Lemma renderStage_invariant program units st astResults st' r :
  transformLoop program units [] st = Some (astResults, st') →
  r ∈ renderStage astResults →
  source r = None ↔ someError (diagnostics r) = true.
Proof.
  intros Hrun%transformLoop_run (a & -> & Hin)%renderStage_elem.
  pose proof (transformRun_invariant _ _ _ _ _ a Hrun Hin) as Hi.
  destruct (renderResult_fields a) as (_ & -> & ->).
  rewrite <- Hi. by destruct (luauAST a).
Qed.

End RenderProps.

(** C7. The render stage maps the AST results one to one: the output has
    the length of the input; entry [i] of the output carries the source
    file and the very diagnostics of entry [i] of the input; its text is
    absent when the AST is absent and is the renderer's output on the AST
    otherwise.  An entry without AST does not call the renderer: its
    result is the same whatever the renderer is. *)
Theorem render_stage_pointwise `{C : Collaborators}
    (astResults : list (CompileResultWithAST LuauAST)) :
  length (renderStage astResults) = length astResults
  ∧ (∀ i a, astResults !! i = Some a →
       ∃ r, renderStage astResults !! i = Some r
            ∧ sourceFile r = ast_sourceFile a
            ∧ diagnostics r = ast_diagnostics a
            ∧ match luauAST a with
              | None => source r = None
              | Some ast => source r = Some (renderAST ast)
              end)
  ∧ (∀ a render, luauAST a = None →
       @renderResult (withRenderer C render) a = @renderResult C a).
Proof.
  split; [|split].
  - unfold renderStage. apply length_map.
  - intros i a Hi. exists (renderResult a).
    rewrite renderStage_lookup, Hi. split; [done|].
    destruct (renderResult_fields a) as (-> & -> & ->).
    by destruct (luauAST a).
  - intros a render Ha. unfold renderResult. cbn. by rewrite Ha.
Qed.

(** ** The transform stage *)

(** C1. The transform stage handles the units in input order and returns
    results for a prefix of them.  Provided the program knows every unit
    (the loop asserts it), the loop returns; result [i] is the transform
    of unit [i] in the state left by the units before it, and every
    result but the last is free of errors and has its AST.  Either no
    result holds an error and there is one result per unit, or the last
    result is the first one with an error, its AST and its rendered text
    are absent, and the units after it are not looked at: whatever
    follows the prefix, results and final state are the same. *)
Theorem transform_stage_fail_fast `{C : Collaborators} program units st :
  Forall (λ sf, is_Some (getSourceFile program (fileName sf))) units →
  ∃ astResults st',
    transformLoop program units [] st = Some (astResults, st')
    ∧ compileFilesParallelPhase2 program units st
      = Some (renderStage astResults, st')
    ∧ length astResults ≤ length units
    ∧ (∀ i r, astResults !! i = Some r →
         ∃ sf sourceFile st_i,
           units !! i = Some sf
           ∧ getSourceFile program (fileName sf) = Some sourceFile
           ∧ transformLoop program (take i units) [] st
             = Some (take i astResults, st_i)
           ∧ r = (compileSingleFileToAST sourceFile program st_i).1
           ∧ ast_sourceFile r = sourceFile
           ∧ (S i < length astResults →
              someError (ast_diagnostics r) = false ∧ is_Some (luauAST r)))
    ∧ ((Forall (λ r, someError (ast_diagnostics r) = false
                     ∧ is_Some (luauAST r)) astResults
        ∧ length astResults = length units)
       ∨ (∃ r, last astResults = Some r
               ∧ someError (ast_diagnostics r) = true
               ∧ luauAST r = None
               ∧ source (renderResult r) = None
               ∧ ∀ later,
                   transformLoop program
                     (take (length astResults) units ++ later) [] st
                   = Some (astResults, st'))).
Proof.
  intros Hknown.
  destruct (transformLoop_total program units st Hknown)
    as (rs & st' & Hloop).
  pose proof Hloop as Hrun. apply transformLoop_run in Hrun.
  assert (Hinv : ∀ r, r ∈ rs →
            someError (ast_diagnostics r) = false → is_Some (luauAST r)).
  { intros r Hin He.
    pose proof (transformRun_invariant _ _ _ _ _ r Hrun Hin) as Hi.
    destruct (luauAST r); [by eexists|].
    destruct Hi as [Hi _]. rewrite Hi in He; done. }
  exists rs, st'. split; [done|]. split.
  { by rewrite compileFilesParallelPhase2_stages, Hloop. }
  split; [by eapply transformRun_length|]. split.
  - intros i r Hi.
    destruct (transformRun_step _ _ _ _ _ i r Hrun Hi)
      as (sf & sourceFile & st_i & Hu & Hsf & Hpre & Hr).
    exists sf, sourceFile, st_i.
    split; [done|]. split; [done|]. split; [by apply transformLoop_run|].
    split; [done|]. split.
    { rewrite Hr. apply compileSingleFileToAST_sourceFile. }
    intros Hlt.
    pose proof (transformRun_before_last _ _ _ _ _ i r Hrun Hi Hlt) as He.
    split; [done|]. apply Hinv; [|done].
    apply list_elem_of_lookup. by exists i.
  - destruct (transformRun_end _ _ _ _ _ Hrun)
      as [[Hall Hlen]|(r & Hlast & Herr)].
    + left. split; [|done].
      apply Forall_forall. intros r Hin.
      rewrite Forall_forall in Hall. split; [by apply Hall|].
      apply Hinv; [done|by apply Hall].
    + right. exists r.
      assert (Hnone : luauAST r = None).
      { apply (transformRun_invariant _ _ _ _ _ r Hrun); [|done].
        apply last_Some in Hlast as [l' ->]. set_solver. }
      split; [done|]. split; [done|]. split; [done|]. split.
      { destruct (renderResult_fields r) as (_ & _ & ->). by rewrite Hnone. }
      intros later. apply transformLoop_run.
      by eapply transformRun_stopped.
Qed.

Lemma transform_stage_fail_fast_witness :
  Forall (λ sf, is_Some (getSourceFile Toy.program (fileName sf)))
    [Toy.A; Toy.B; Toy.C]
  ∧ ∃ astResults st',
      transformLoop Toy.program [Toy.A; Toy.B; Toy.C] [] Toy.st0
      = Some (astResults, st')
      ∧ length astResults ≤ 3.
Proof.
  assert (Hknown : Forall
            (λ sf, is_Some (getSourceFile Toy.program (fileName sf)))
            [Toy.A; Toy.B; Toy.C]).
  { repeat constructor; by eexists. }
  split; [exact Hknown|].
  destruct (transform_stage_fail_fast
              Toy.program [Toy.A; Toy.B; Toy.C] Toy.st0 Hknown)
    as (rs & st' & Hloop & _ & Hlen & _).
  exists rs, st'. split; [exact Hloop|exact Hlen].
Defined.

(** C10. Every result the transform and the render stage return has its
    AST, and then its text, absent exactly when its diagnostics hold an
    error; a result that carries text has no error. *)
Theorem result_absent_iff_error `{C : Collaborators}
    program units st astResults st' :
  transformLoop program units [] st = Some (astResults, st') →
  (∀ a, a ∈ astResults →
     (luauAST a = None ↔ someError (ast_diagnostics a) = true))
  ∧ compileFilesParallelPhase2 program units st
    = Some (renderStage astResults, st')
  ∧ (∀ r, r ∈ renderStage astResults →
       (source r = None ↔ someError (diagnostics r) = true)
       ∧ (is_Some (source r) → someError (diagnostics r) = false)).
Proof.
  intros Hloop. pose proof Hloop as Hrun. apply transformLoop_run in Hrun.
  split; [intros a Hin; by apply (transformRun_invariant _ _ _ _ _ a Hrun)|].
  split.
  { by rewrite compileFilesParallelPhase2_stages, Hloop. }
  intros r Hin.
  pose proof (renderStage_invariant _ _ _ _ _ r Hloop Hin) as [Hi1 Hi2].
  split; [by split|].
  intros [src Hsrc]. destruct (someError (diagnostics r)); [|done].
  rewrite Hi2 in Hsrc; done.
Qed.

Lemma result_absent_iff_error_witness :
  ∃ astResults st',
    transformLoop Toy.program [Toy.A; Toy.B; Toy.C] [] Toy.st0
    = Some (astResults, st')
    ∧ ∀ r, r ∈ renderStage astResults →
        source r = None ↔ someError (diagnostics r) = true.
Proof.
  eexists _, _. split; [reflexivity|].
  intros r Hr.
  apply (result_absent_iff_error
           Toy.program [Toy.A; Toy.B; Toy.C] Toy.st0 _ _ eq_refl).
  exact Hr.
Defined.

(** ** Batching *)

Section Batches.
Context {A : Type}.
Implicit Types (l : list A) (batches : list (list A)).

Lemma slice_take_drop i n l : slice i (i + n) l = take n (drop i l).
Proof. unfold slice. f_equal. lia. Qed.

(** With a positive batch size and fuel for every remaining entry, the
    loop returns: it pushes the slices of [l] that start at [i],
    [i + batchSize], .. and together make up [l] from [i] on. *)
Lemma batchLoop_spec fuel batchSize l i acc :
  0 < batchSize → length l - i ≤ fuel →
  ∃ batches,
    batchLoop fuel batchSize l i acc = Some (acc ++ batches)
    ∧ concat batches = drop i l
    ∧ (∀ j b, batches !! j = Some b →
         b = take batchSize (drop (i + j * batchSize) l))
    ∧ length l - i ≤ length batches * batchSize
    ∧ length batches * batchSize < length l - i + batchSize.
Proof.
  intros Hpos. revert i acc.
  induction fuel as [|fuel IH]; intros i acc Hfuel.
  - exists []. simpl. rewrite bool_decide_eq_false_2 by lia.
    rewrite app_nil_r, drop_ge by lia. repeat split; [done|simpl; lia..].
  - simpl. case_bool_decide as Hi.
    + destruct (IH (i + batchSize) (acc ++ [slice i (i + batchSize) l]))
        as (bs & -> & Hcat & Hnth & Hlo & Hhi); [lia|].
      exists (slice i (i + batchSize) l :: bs).
      split; [by rewrite <- app_assoc|].
      rewrite slice_take_drop. split.
      { simpl. rewrite Hcat.
        rewrite <- (take_drop batchSize (drop i l)) at 2.
        by rewrite drop_drop. }
      split.
      { intros [|j] b Hb; simpl in Hb.
        - injection Hb as <-. by rewrite Nat.add_0_r.
        - rewrite (Hnth j b Hb). do 2 f_equal. lia. }
      simpl. destruct (length bs) as [|n]; simpl in *; lia.
    + exists []. rewrite app_nil_r, drop_ge by lia.
      repeat split; [done|simpl; lia..].
Qed.

Lemma makeBatches_spec batchSize l :
  0 < batchSize →
  ∃ batches,
    makeBatches batchSize l = Some batches
    ∧ concat batches = l
    ∧ (∀ j b, batches !! j = Some b →
         b = take batchSize (drop (j * batchSize) l))
    ∧ length l ≤ length batches * batchSize
    ∧ length batches * batchSize < length l + batchSize.
Proof.
  intros Hpos.
  destruct (batchLoop_spec (length l) batchSize l 0 [] Hpos)
    as (bs & Hloop & Hcat & Hnth & Hlo & Hhi); [lia|].
  exists bs. unfold makeBatches. rewrite Hloop.
  rewrite Nat.sub_0_r in Hlo, Hhi. by repeat split.
Qed.

(** The size of batch [j]: full batches, then the remainder. *)
Lemma batch_length batchSize l j :
  length (take batchSize (drop (j * batchSize) l))
  = min batchSize (length l - j * batchSize).
Proof. by rewrite length_take, length_drop. Qed.

End Batches.

(** ** The write stage *)

Section WriteProps.
Context `{C : Collaborators}.
Implicit Types (r : CompileResult) (files : FS) (data : ProjectOptions).




(** A task decides on the content of its own destination only. *)
Lemma writeTask_eq data r files src :
  source r = Some src →
  writeTask data r files
  = if truthy src then
      if decide (writeOnlyChanged data = true
                 ∧ files !! outPathOf r = Some src)
      then (None, files)
      else (Some (outPathOf r), <[outPathOf r := src]> files)
    else (None, files).
Proof.
  intros Hsrc. unfold writeTask, fs.pathExists, fs.readFile, fs.outputFile.
  rewrite Hsrc. fold (outPathOf r).
  destruct (truthy src); [|done].
  destruct (decide _) as [[Hw Hf]|Hn].
  - rewrite Hw, Hf. simpl.
    by rewrite bool_decide_eq_true_2 by done.
  - destruct (writeOnlyChanged data); [|done]. simpl.
    destruct (files !! outPathOf r) as [old|] eqn:Hold; simpl; [|done].
    rewrite bool_decide_eq_false_2; [done|].
    intros Heq. apply Hn. by split.
Qed.

Lemma writeTask_no_text data r files :
  hasText r = false → writeTask data r files = (None, files).
Proof.
  unfold hasText, writeTask. destruct (source r) as [src|]; [|done].
  by intros ->.
Qed.

(** A task that reports no path has left the files alone. *)
Lemma writeTask_none data r files :
  (writeTask data r files).1 = None → (writeTask data r files).2 = files.
Proof.
  destruct (source r) as [src|] eqn:Hsrc.
  - rewrite (writeTask_eq _ _ _ src Hsrc).
    destruct (truthy src); [|done]. by case_decide.
  - unfold writeTask. by rewrite Hsrc.
Qed.

(** A task writes nowhere but at its destination. *)
Lemma writeTask_other data r files p :
  p ≠ outPathOf r → (writeTask data r files).2 !! p = files !! p.
Proof.
  intros Hp. destruct (source r) as [src|] eqn:Hsrc.
  - rewrite (writeTask_eq _ _ _ src Hsrc).
    destruct (truthy src); [|done]. case_decide; [done|].
    simpl. by rewrite lookup_insert_ne.
  - unfold writeTask. by rewrite Hsrc.
Qed.

(** After the task of a result with text, the destination holds it. *)
Lemma writeTask_dest data r files src :
  source r = Some src → truthy src = true →
  (writeTask data r files).2 !! outPathOf r = Some src.
Proof.
  intros Hsrc Ht. rewrite (writeTask_eq _ _ _ src Hsrc), Ht.
  case_decide as Hd; simpl.
  - by destruct Hd.
  - by rewrite lookup_insert_eq.
Qed.

(** The decision of a task depends on the files at its destination only. *)
Lemma writeTask_decision_ext data r files files' :
  files !! outPathOf r = files' !! outPathOf r →
  (writeTask data r files).1 = (writeTask data r files').1.
Proof.
  intros Heq. destruct (source r) as [src|] eqn:Hsrc.
  - rewrite !(writeTask_eq _ _ _ src Hsrc), Heq.
    destruct (truthy src); [|done]. by case_decide.
  - unfold writeTask. by rewrite Hsrc.
Qed.

Lemma writeTask_decision data r files :
  hasText r = true →
  (writeTask data r files).1
  = if decide (writeOnlyChanged data = false ∨ outdated files r)
    then Some (outPathOf r) else None.
Proof.
  unfold hasText. destruct (source r) as [src|] eqn:Hsrc; [|done].
  intros Ht. rewrite (writeTask_eq _ _ _ src Hsrc), Ht.
  assert (Hout : outdated files r ↔ files !! outPathOf r ≠ Some src).
  { unfold outdated. by rewrite Hsrc. }
  destruct (decide (writeOnlyChanged data = true
                    ∧ files !! outPathOf r = Some src)) as [[Hw Hf]|Hn];
    simpl.
  - rewrite decide_False; [done|]. intros [?|?%Hout]; congruence.
  - rewrite decide_True; [done|].
    destruct (writeOnlyChanged data); [right|by left].
    apply Hout. intros ?. by apply Hn.
Qed.

(** *** A sequence of tasks *)

Lemma writeBatch_cons data r l files :
  writeBatch data (r :: l) files
  = ((writeTask data r files).1
       :: (writeBatch data l (writeTask data r files).2).1,
     (writeBatch data l (writeTask data r files).2).2).
Proof.
  simpl. destruct (writeTask data r files) as [p files1]. simpl.
  by destruct (writeBatch data l files1).
Qed.

Lemma writeBatch_app data l1 l2 files :
  writeBatch data (l1 ++ l2) files
  = ((writeBatch data l1 files).1
       ++ (writeBatch data l2 (writeBatch data l1 files).2).1,
     (writeBatch data l2 (writeBatch data l1 files).2).2).
Proof.
  revert files. induction l1 as [|r l1 IH]; intros files.
  - simpl. by destruct (writeBatch data l2 files).
  - rewrite <- app_comm_cons, !writeBatch_cons, IH. done.
Qed.

Lemma writeBatch_length data l files :
  length (writeBatch data l files).1 = length l.
Proof.
  revert files. induction l as [|r l IH]; intros files; [done|].
  rewrite writeBatch_cons. simpl. by rewrite IH.
Qed.

(** Batch after batch is task after task: the batched loop writes what
    one pass over all the entries writes, in the same order. *)
Lemma writeBatches_flat data batches emitted files :
  writeBatches data batches emitted files
  = (emitted ++ omap id (writeBatch data (concat batches) files).1,
     (writeBatch data (concat batches) files).2).
Proof.
  revert emitted files.
  induction batches as [|b batches IH]; intros emitted files; simpl.
  - by rewrite app_nil_r.
  - rewrite writeBatch_app. simpl.
    destruct (writeBatch data b files) as [written files1]. simpl.
    rewrite IH, omap_app. by rewrite <- app_assoc.
Qed.

Lemma writeBatch_other data l files p :
  p ∉ map outPathOf l → (writeBatch data l files).2 !! p = files !! p.
Proof.
  revert files. induction l as [|r l IH]; intros files Hp; [done|].
  rewrite writeBatch_cons. simpl. simpl in Hp.
  rewrite not_elem_of_cons in Hp. destruct Hp as [Hne Hp].
  rewrite IH by done. by apply writeTask_other.
Qed.

(** On pairwise distinct destinations every task decides as it would on
    the files the sequence started with: the tasks do not influence one
    another, in whatever order they run. *)
Lemma writeAll_decided_at_start data l files :
  NoDup (map outPathOf l) →
  (writeBatch data l files).1 = map (λ r, (writeTask data r files).1) l.
Proof.
  revert files. induction l as [|r l IH]; intros files Hnd; [done|].
  simpl in Hnd. apply NoDup_cons in Hnd as [Hr Hnd].
  rewrite writeBatch_cons. simpl. f_equal.
  rewrite IH by done. apply map_ext_in. intros r' Hin.
  apply writeTask_decision_ext, writeTask_other.
  intros Heq. apply Hr. rewrite <- Heq.
  apply list_elem_of_fmap. exists r'. split; [done|].
  by apply list_elem_of_In.
Qed.

(** On pairwise distinct destinations, the destination of every result
    with text holds that text once the sequence is through. *)
Lemma writeBatch_dest data l files r src :
  NoDup (map outPathOf l) → r ∈ l →
  source r = Some src → truthy src = true →
  (writeBatch data l files).2 !! outPathOf r = Some src.
Proof.
  revert files. induction l as [|r0 l IH]; intros files Hnd Hin Hsrc Ht.
  - by apply elem_of_nil in Hin.
  - simpl in Hnd. apply NoDup_cons in Hnd as [Hr Hnd].
    rewrite writeBatch_cons. simpl.
    apply elem_of_cons in Hin as [->|Hin].
    + rewrite writeBatch_other by done. by apply writeTask_dest.
    + by apply IH.
Qed.

(** When every destination is up to date and only changes are written,
    nothing is written. *)
Lemma writeBatch_up_to_date data l files :
  writeOnlyChanged data = true →
  (∀ r src, r ∈ l → source r = Some src → truthy src = true →
            files !! outPathOf r = Some src) →
  writeBatch data l files = (replicate (length l) None, files).
Proof.
  intros Hwoc. induction l as [|r l IH]; intros Hall; [done|].
  assert (Hr : writeTask data r files = (None, files)).
  { destruct (source r) as [src|] eqn:Hsrc.
    - rewrite (writeTask_eq _ _ _ src Hsrc).
      destruct (truthy src) eqn:Ht; [|done].
      rewrite decide_True; [done|]. split; [done|].
      apply Hall; [left|done..].
    - unfold writeTask. by rewrite Hsrc. }
  rewrite writeBatch_cons, Hr. simpl. rewrite IH; [done|].
  intros r' src Hin. apply Hall. by right.
Qed.

Lemma omap_replicate_None {A} n : omap id (replicate n (@None A)) = [].
Proof. induction n; [done|]. simpl. done. Qed.

Lemma omap_id_cons {A} (o : option A) (l : list (option A)) :
  omap id (o :: l)
  = match o with Some x => x :: omap id l | None => omap id l end.
Proof. by destruct o. Qed.

(** A written path comes from a result with text: no more paths are
    written than results were rendered. *)
Lemma writeBatch_written_le data l files :
  length (omap id (writeBatch data l files).1)
  ≤ length (filter (λ r, hasSource r = true) l).
Proof.
  revert files. induction l as [|r l IH]; intros files; [done|].
  rewrite writeBatch_cons, filter_cons.
  specialize (IH (writeTask data r files).2).
  destruct (writeTask data r files) as [p files1] eqn:Ht. cbn [fst snd] in *.
  destruct (source r) as [src|] eqn:Hsrc.
  - rewrite decide_True by (unfold hasSource; by rewrite Hsrc).
    destruct p; simpl; [apply le_n_S|apply Nat.le_le_succ_r]; exact IH.
  - rewrite decide_False by (unfold hasSource; by rewrite Hsrc).
    unfold writeTask in Ht. rewrite Hsrc in Ht. by injection Ht as <- <-.
Qed.

(** The written paths of a sequence of results with text on pairwise
    distinct destinations. *)
Lemma writeBatch_written data l files :
  NoDup (map outPathOf l) → Forall (λ r, hasText r = true) l →
  omap id (writeBatch data l files).1
  = map outPathOf
      (filter (λ r, writeOnlyChanged data = false ∨ outdated files r) l).
Proof.
  intros Hnd Hall. rewrite writeAll_decided_at_start by done.
  clear Hnd. induction Hall as [|r l Hr Hall IH]; [done|].
  rewrite filter_cons, map_cons, omap_id_cons, IH,
    writeTask_decision by done.
  by destruct (decide _).
Qed.

End WriteProps.

(** ** The run as a whole *)

Section RunProps.
Context `{C : Collaborators}.
Implicit Types (files : FS) (data : ProjectOptions).

(** *** Step 0 *)

Lemma reprintLoop_files_off data transformed watcher files newSourceFiles :
  writeTransformedFiles data = false →
  (reprintLoop data transformed watcher files newSourceFiles).1.2 = files.
Proof.
  intros Hoff. revert watcher newSourceFiles.
  induction transformed as [|[sf|] transformed IH];
    intros watcher newSourceFiles; simpl; [done| |done].
  rewrite Hoff. apply IH.
Qed.

Lemma applyCustomTransformers_no_plugins
    program data compilerOptions sourceFiles st files :
  pluginsConfigured compilerOptions = false →
  applyCustomTransformers program data compilerOptions sourceFiles st files
  = Some (mkPluginOutcome program sourceFiles st files).
Proof. unfold applyCustomTransformers. by intros ->. Qed.

(** Step 0 touches the files only to write the transformed sources. *)
Lemma applyCustomTransformers_files
    program data compilerOptions sourceFiles st files step0 :
  applyCustomTransformers program data compilerOptions sourceFiles st files
  = Some step0 →
  pluginsConfigured compilerOptions = false
  ∨ writeTransformedFiles data = false →
  plugin_files step0 = files.
Proof.
  unfold applyCustomTransformers. intros Hstep Hoff.
  destruct (pluginsConfigured compilerOptions);
    [|by injection Hstep as <-].
  destruct Hoff as [|Hoff]; [done|].
  case_bool_decide; [|by injection Hstep as <-].
  destruct (transformNodes _ _) as [ds transformed].
  pose proof (reprintLoop_files_off data transformed
    (default (createTransformerWatcher program) (transformerWatcher st))
    files [] Hoff) as Hfiles.
  destruct (reprintLoop _ _ _ _ _) as [[watcher files1] newSourceFiles].
  simpl in Hfiles. subst files1.
  destruct (mapM _ _); [|done]. by injection Hstep as <-.
Qed.

(** *** The stages of a run *)


Lemma BATCH_SIZE_pos : 0 < BATCH_SIZE.
Proof. unfold BATCH_SIZE. lia. Qed.

(** The batched write loop of the run is one pass over the results. *)
Lemma write_stage_flat data (results : list CompileResult) files :
  ∃ batches,
    makeBatches BATCH_SIZE results = Some batches
    ∧ writeBatches data batches [] files
      = (omap id (writeBatch data results files).1,
         (writeBatch data results files).2).
Proof.
  destruct (makeBatches_spec BATCH_SIZE results BATCH_SIZE_pos)
    as (batches & Hb & Hcat & _).
  exists batches. split; [done|].
  by rewrite writeBatches_flat, Hcat.
Qed.

Lemma run_reaches_write_stage
    program data compilerOptions sourceFiles startTime endTime st files
    results st' files' :
  writeStageInput program data compilerOptions sourceFiles st files
  = Some (results, st', files') →
  compileAndWriteFilesParallel program data compilerOptions sourceFiles
    startTime endTime st files
  = Some (emitOutcome data startTime endTime results st' files').
Proof.
  unfold writeStageInput, compileAndWriteFilesParallel.
  destruct (applyCustomTransformers _ _ _ _ _ _) as [step0|]; [|done].
  destruct (DiagnosticService.hasErrors _); [done|].
  destruct (compileFilesParallelPhase2 _ _ _) as [[rs st1]|]; [|done].
  destruct (someError _); [done|].
  intros [= -> -> <-].
  destruct (write_stage_flat data results (plugin_files step0))
    as (batches & -> & ->).
  done.
Qed.

Lemma run_emitted
    program data compilerOptions sourceFiles startTime endTime st files out :
  compileAndWriteFilesParallel program data compilerOptions sourceFiles
    startTime endTime st files = Some out →
  emitSkipped (emitResult out) = false →
  ∃ results st' files',
    writeStageInput program data compilerOptions sourceFiles st files
    = Some (results, st', files')
    ∧ out = emitOutcome data startTime endTime results st' files'.
Proof.
  intros Hrun Hemit.
  destruct (writeStageInput program data compilerOptions sourceFiles
              st files) as [[[results st'] files']|] eqn:Hin.
  - exists results, st', files'. split; [done|].
    rewrite (run_reaches_write_stage _ _ _ _ startTime endTime _ _ _ _ _ Hin)
      in Hrun.
    by injection Hrun as <-.
  - exfalso. revert Hin Hrun.
    unfold writeStageInput, compileAndWriteFilesParallel.
    destruct (applyCustomTransformers _ _ _ _ _ _) as [step0|]; [|done].
    destruct (DiagnosticService.hasErrors _).
    { intros _ [= <-]. done. }
    destruct (compileFilesParallelPhase2 _ _ _) as [[rs st1]|]; [|done].
    destruct (someError _); [|done].
    intros _ [= <-]. done.
Qed.

Lemma run_skipped
    program data compilerOptions sourceFiles startTime endTime st files out :
  compileAndWriteFilesParallel program data compilerOptions sourceFiles
    startTime endTime st files = Some out →
  emitSkipped (emitResult out) = true →
  someError (emit_diagnostics (emitResult out)) = true
  ∧ emittedFiles (emitResult out) = None
  ∧ report out = None
  ∧ ∃ step0,
      applyCustomTransformers program data compilerOptions sourceFiles
        st files = Some step0
      ∧ final_files out = plugin_files step0.
Proof.
  unfold compileAndWriteFilesParallel.
  destruct (applyCustomTransformers _ _ _ _ _ _) as [step0|]; [|done].
  destruct (DiagnosticService.hasErrors _) eqn:Hsink.
  { intros [= <-] _. simpl. repeat split; [done|]. by exists step0. }
  destruct (compileFilesParallelPhase2 _ _ _) as [[rs st1]|]; [|done].
  destruct (someError _) eqn:Herr.
  { intros [= <-] _. simpl. repeat split; [done|]. by exists step0. }
  destruct (makeBatches _ _); [|done].
  destruct (writeBatches _ _ _ _). by intros [= <-].
Qed.

Lemma writeStageInput_clean
    program data compilerOptions sourceFiles st files results st' files' :
  writeStageInput program data compilerOptions sourceFiles st files
  = Some (results, st', files') →
  someError (concat (map diagnostics results)) = false
  ∧ Forall (λ r, is_Some (source r)) results
  ∧ ∃ step0,
      applyCustomTransformers program data compilerOptions sourceFiles
        st files = Some step0
      ∧ files' = plugin_files step0.
Proof.
  unfold writeStageInput.
  destruct (applyCustomTransformers _ _ _ _ _ _) as [step0|]; [|done].
  destruct (DiagnosticService.hasErrors _); [done|].
  destruct (compileFilesParallelPhase2 _ _ _) as [[rs st1]|] eqn:Hc; [|done].
  destruct (someError _) eqn:Herr; [done|].
  intros [= -> -> <-]. split; [done|]. split; [|by exists step0].
  rewrite compileFilesParallelPhase2_stages in Hc.
  destruct (transformLoop _ _ _ _) as [[astResults st2]|] eqn:Hloop; [|done].
  injection Hc as <- <-.
  apply Forall_forall. intros r Hin.
  apply someError_concat in Herr. rewrite Forall_forall in Herr.
  destruct (source r) eqn:Hsrc; [by eexists|].
  apply (renderStage_invariant _ _ _ _ _ r Hloop Hin) in Hsrc.
  rewrite Herr in Hsrc; [done|].
  apply list_elem_of_fmap. by exists r.
Qed.

End RunProps.

Section WriteCounts.
Context `{C : Collaborators}.

(** Without the change check every result with text is written. *)
Lemma writeBatch_always data (l : list CompileResult) (files : FS) :
  writeOnlyChanged data = false → Forall (λ r, hasText r = true) l →
  omap id (writeBatch data l files).1 = map outPathOf l.
Proof.
  intros Hoff Hall. revert files.
  induction Hall as [|r l Hr Hall IH]; intros files; [done|].
  rewrite writeBatch_cons. cbn [fst].
  rewrite omap_id_cons, IH, writeTask_decision by done.
  rewrite decide_True by by left. done.
Qed.

(** One outcome per entry, in order: the destination or nothing. *)
Lemma writeBatch_outcomes data (l : list CompileResult) (files : FS) :
  Forall2 (λ r o, o = None ∨ o = Some (outPathOf r))
    l (writeBatch data l files).1.
Proof.
  revert files. induction l as [|r l IH]; intros files; [constructor|].
  rewrite writeBatch_cons. cbn [fst]. constructor; [|apply IH].
  destruct (source r) as [src|] eqn:Hsrc.
  - rewrite (writeTask_eq _ _ _ src Hsrc).
    destruct (truthy src); [|by left]. case_decide; [by left|by right].
  - unfold writeTask. rewrite Hsrc. by left.
Qed.

(** Outcomes that are the destination or nothing give written paths in
    the order of the entries. *)
Lemma outcomes_sublist {A B} (f : A → B) (l : list A) (os : list (option B)) :
  Forall2 (λ r o, o = None ∨ o = Some (f r)) l os →
  omap id os `sublist_of` map f l.
Proof.
  induction 1 as [|r o l os [->| ->] _ IH]; simpl.
  - constructor.
  - by apply sublist_cons.
  - by apply sublist_skip.
Qed.

End WriteCounts.

(** C2. A run whose returned diagnostics hold an error reports
    [emitSkipped: true] and carries no [emittedFiles]; its write stage
    has not run: the files are those step 0 left, which are the files the
    run started with unless step 0 wrote transformed sources.  This holds
    whatever was rendered before the failing unit. *)
Theorem errors_withhold_emit `{C : Collaborators}
    program data compilerOptions sourceFiles startTime endTime st
    (files : FS) out :
  compileAndWriteFilesParallel program data compilerOptions sourceFiles
    startTime endTime st files = Some out →
  someError (emit_diagnostics (emitResult out)) = true →
  emitSkipped (emitResult out) = true
  ∧ emittedFiles (emitResult out) = None
  ∧ report out = None
  ∧ (∃ step0,
       applyCustomTransformers program data compilerOptions sourceFiles
         st files = Some step0
       ∧ final_files out = plugin_files step0)
  ∧ (pluginsConfigured compilerOptions = false
     ∨ writeTransformedFiles data = false →
     final_files out = files).
Proof.
  intros Hrun Herr.
  destruct (emitSkipped (emitResult out)) eqn:Hskip.
  - destruct (run_skipped _ _ _ _ _ _ _ _ _ Hrun Hskip)
      as (_ & Hnone & Hrep & step0 & Hstep & Hfiles).
    split; [done|]. split; [done|]. split; [done|].
    split; [by exists step0|].
    intros Hoff. rewrite Hfiles.
    by eapply applyCustomTransformers_files.
  - destruct (run_emitted _ _ _ _ _ _ _ _ _ Hrun Hskip)
      as (results & st' & files' & Hin & ->).
    apply writeStageInput_clean in Hin as [Hclean _].
    simpl in Herr. congruence.
Qed.

Lemma errors_withhold_emit_witness :
  ∃ out,
    compileAndWriteFilesParallel Toy.program Toy.always Toy.noPlugins
      [Toy.A; Toy.B; Toy.C] 0 10 Toy.st0 ∅ = Some out
    ∧ emitSkipped (emitResult out) = true
    ∧ final_files out = ∅.
Proof.
  eexists. split; [reflexivity|].
  destruct (errors_withhold_emit Toy.program Toy.always Toy.noPlugins
              [Toy.A; Toy.B; Toy.C] 0%Z 10%Z Toy.st0 ∅ _ eq_refl eq_refl)
    as (Hskip & _ & _ & _ & Hfiles).
  split; [exact Hskip|]. apply Hfiles. by left.
Defined.

(** C3, at the input where the code departs from it.  A result whose
    rendered text is the empty string has its text present, yet its write
    task neither writes nor records the destination, whatever the
    options: the guard [if (result.source)] is false on the empty
    string.  In the run on the unit [d.ts], compiled to the empty text
    with the change check off, nothing is written; the statistics count
    the unit as successful and as skipped. *)
Theorem empty_text_never_written :
  (∀ (r : CompileResult) (files : FS),
     source r = Some ""%string →
     @writeTask Toy.collaborators Toy.always r files = (None, files))
  ∧ ∃ out rep,
      compileAndWriteFilesParallel Toy.program Toy.always Toy.noPlugins
        [Toy.D] 0 10 Toy.st0 ∅ = Some out
      ∧ emitResult out = mkEmitResult false [] (Some [])
      ∧ final_files out = ∅
      ∧ report out = Some rep
      ∧ successful (stats rep) = 1
      ∧ skippedFiles rep = 1%Z.
Proof.
  split.
  - intros r files Hsrc. unfold writeTask. by rewrite Hsrc.
  - eexists _, _. split; [reflexivity|]. by repeat split.
Qed.

(** C4 as stated fails: with the change check off, a unit whose
    destination already holds the new text is written all the same.  One
    path is written although no destination is outdated. *)
Lemma written_count_counterexample :
  let files : FS := {[ "out/a.ts" := "export const x = 1;" ]}%string in
  ∃ out results st' emitted,
    writeStageInput Toy.program Toy.always Toy.noPlugins [Toy.A]
      Toy.st0 files = Some (results, st', files)
    ∧ compileAndWriteFilesParallel Toy.program Toy.always Toy.noPlugins
        [Toy.A] 0 10 Toy.st0 files = Some out
    ∧ someError (emit_diagnostics (emitResult out)) = false
    ∧ emittedFiles (emitResult out) = Some emitted
    ∧ length emitted = 1
    ∧ length (filter (outdated (C := Toy.collaborators) files) results) = 0.
Proof.
  eexists _, _, _, _. split; [reflexivity|]. split; [reflexivity|].
  split; [reflexivity|]. split; [reflexivity|]. split; reflexivity.
Qed.

(** C4, amended.  In a run that emits, every result was rendered, and
    the written count plus the skipped count is the number of rendered
    results, the skipped count being non-negative.  When the change check
    is on, the destinations are pairwise distinct and no rendered text is
    empty, the written paths are the destinations that are outdated when
    the write stage starts, in order: as many paths are written as
    destinations are missing or differ.  When the change check is off and
    no rendered text is empty, every destination is written.  The write
    stage starts from the files the run was given, unless step 0 wrote
    transformed sources. *)
Theorem written_count `{C : Collaborators}
    program data compilerOptions sourceFiles startTime endTime st
    (files : FS) out :
  compileAndWriteFilesParallel program data compilerOptions sourceFiles
    startTime endTime st files = Some out →
  emitSkipped (emitResult out) = false →
  ∃ results st' files' emitted rep,
    writeStageInput program data compilerOptions sourceFiles st files
    = Some (results, st', files')
    ∧ (pluginsConfigured compilerOptions = false
       ∨ writeTransformedFiles data = false → files' = files)
    ∧ emittedFiles (emitResult out) = Some emitted
    ∧ report out = Some rep
    ∧ writtenFiles rep = length emitted
    ∧ successful (stats rep) = length results
    ∧ (Z.of_nat (writtenFiles rep) + skippedFiles rep
       = Z.of_nat (successful (stats rep)))%Z
    ∧ (0 ≤ skippedFiles rep)%Z
    ∧ (writeOnlyChanged data = true →
       NoDup (map outPathOf results) →
       Forall (λ r, hasText r = true) results →
       emitted = map outPathOf (filter (outdated files') results)
       ∧ length emitted = length (filter (outdated files') results))
    ∧ (writeOnlyChanged data = false →
       Forall (λ r, hasText r = true) results →
       emitted = map outPathOf results).
Proof.
  intros Hrun Hemit.
  destruct (run_emitted _ _ _ _ _ _ _ _ _ Hrun Hemit)
    as (results & st' & files' & Hin & ->).
  destruct (writeStageInput_clean _ _ _ _ _ _ _ _ _ Hin)
    as (_ & Hsrc & step0 & Hstep & ->).
  assert (Hall : filter (λ r, hasSource r = true) results = results).
  { clear -Hsrc. induction Hsrc as [|r l [src Hr] _ IH]; [done|].
    rewrite filter_cons, decide_True, IH; [done|].
    unfold hasSource. by rewrite Hr. }
  pose proof (writeBatch_written_le data results (plugin_files step0))
    as Hle.
  rewrite Hall in Hle.
  eexists results, st', (plugin_files step0), _, _.
  split; [done|]. split.
  { intros Hoff. by eapply applyCustomTransformers_files. }
  split; [reflexivity|]. split; [reflexivity|]. cbn.
  split; [done|]. split; [by rewrite Hall|]. rewrite Hall.
  split; [lia|]. split; [lia|]. split.
  - intros Hon Hnd Htext.
    assert (Heq : omap id (writeBatch data results (plugin_files step0)).1
                  = map outPathOf
                      (filter (outdated (plugin_files step0)) results)).
    { rewrite writeBatch_written by done. f_equal.
      apply list_filter_iff. intros r. rewrite Hon.
      split; [intros [?|?]; [done|done]|by right]. }
    split; [done|]. by rewrite Heq, length_map.
  - intros Hoff Htext. by apply writeBatch_always.
Qed.

Lemma written_count_witness :
  ∃ out,
    compileAndWriteFilesParallel Toy.program Toy.changedOnly Toy.noPlugins
      [Toy.A; Toy.C] 0 10 Toy.st0
      {[ "out/a.ts" := "export const x = 1;" ]}%string = Some out
    ∧ emitSkipped (emitResult out) = false
    ∧ ∃ emitted rep,
        emittedFiles (emitResult out) = Some emitted
        ∧ report out = Some rep
        ∧ (Z.of_nat (writtenFiles rep) + skippedFiles rep
           = Z.of_nat (successful (stats rep)))%Z.
Proof.
  eexists. split; [reflexivity|].
  match goal with
  | |- emitSkipped (emitResult ?out) = false ∧ _ =>
    assert (Hrun : compileAndWriteFilesParallel Toy.program Toy.changedOnly
                     Toy.noPlugins [Toy.A; Toy.C] 0 10 Toy.st0
                     {[ "out/a.ts" := "export const x = 1;" ]}%string
                   = Some out) by (vm_compute; reflexivity);
    assert (Hskip : emitSkipped (emitResult out) = false)
      by (vm_compute; reflexivity);
    destruct (written_count _ _ _ _ _ _ _ _ _ Hrun Hskip)
      as (results & st' & files' & emitted & rep
          & _ & _ & Hem & Hrep & _ & _ & Hsum & _)
  end.
  split; [exact Hskip|]. exists emitted, rep.
  split; [exact Hem|]. split; [exact Hrep|exact Hsum].
Defined.

(** C5. Idempotence of the write stage.  Take a run with the change
    check on that reaches its write stage with results on pairwise
    distinct destinations.  A second run from the files the first one
    left, which reaches its write stage with the same results and the
    files untouched, writes nothing: it emits, its [emittedFiles] is
    empty, the files stay as they are and every rendered result counts
    as skipped. *)
Theorem second_run_writes_nothing `{C : Collaborators}
    program data compilerOptions sourceFiles startTime endTime
    startTime2 endTime2 st st2 (files files1 : FS) results st1 st2' out1 :
  writeOnlyChanged data = true →
  writeStageInput program data compilerOptions sourceFiles st files
  = Some (results, st1, files1) →
  NoDup (map outPathOf results) →
  compileAndWriteFilesParallel program data compilerOptions sourceFiles
    startTime endTime st files = Some out1 →
  writeStageInput program data compilerOptions sourceFiles st2
    (final_files out1)
  = Some (results, st2', final_files out1) →
  ∃ out2 rep,
    compileAndWriteFilesParallel program data compilerOptions sourceFiles
      startTime2 endTime2 st2 (final_files out1) = Some out2
    ∧ emitSkipped (emitResult out2) = false
    ∧ emittedFiles (emitResult out2) = Some []
    ∧ final_files out2 = final_files out1
    ∧ report out2 = Some rep
    ∧ writtenFiles rep = 0
    ∧ skippedFiles rep = Z.of_nat (successful (stats rep)).
Proof.
  intros Hon Hin1 Hnd Hrun1 Hin2.
  rewrite (run_reaches_write_stage _ _ _ _ startTime endTime _ _ _ _ _ Hin1)
    in Hrun1.
  injection Hrun1 as <-. cbn [final_files emitOutcome] in *.
  set (files2 := (writeBatch data results files1).2) in *.
  assert (Hquiet : writeBatch data results files2
                   = (replicate (length results) None, files2)).
  { apply writeBatch_up_to_date; [done|].
    intros r src Hr Hsrc Ht. by apply writeBatch_dest. }
  eexists _, _. split.
  { apply (run_reaches_write_stage _ _ _ _ startTime2 endTime2 _ _ _ _ _ Hin2). }
  unfold emitOutcome. rewrite Hquiet. cbn.
  rewrite omap_replicate_None. cbn.
  repeat split. cbn. lia.
Qed.

Lemma second_run_writes_nothing_witness :
  ∃ out1 out2,
    compileAndWriteFilesParallel Toy.program Toy.changedOnly Toy.noPlugins
      [Toy.A; Toy.C] 0 10 Toy.st0 ∅ = Some out1
    ∧ emittedFiles (emitResult out1) = Some ["out/a.ts"; "out/c.ts"]%string
    ∧ compileAndWriteFilesParallel Toy.program Toy.changedOnly Toy.noPlugins
        [Toy.A; Toy.C] 20 30 (final_state out1) (final_files out1)
      = Some out2
    ∧ emittedFiles (emitResult out2) = Some [].
Proof.
  eexists.
  match goal with
  | |- ∃ out2, ?run = Some ?out1 ∧ _ =>
    assert (Hrun1 : run = Some out1) by (vm_compute; reflexivity)
  end.
  match type of Hrun1 with
  | _ = Some ?out1 =>
    assert (Hin1 : ∃ results st1,
              writeStageInput Toy.program Toy.changedOnly Toy.noPlugins
                [Toy.A; Toy.C] Toy.st0 ∅ = Some (results, st1, ∅)
              ∧ NoDup (map (outPathOf (C := Toy.collaborators)) results)
              ∧ ∃ st2',
                  writeStageInput Toy.program Toy.changedOnly Toy.noPlugins
                    [Toy.A; Toy.C] (final_state out1) (final_files out1)
                  = Some (results, st2', final_files out1))
  end.
  { eexists _, _. split; [vm_compute; reflexivity|]. split.
    - apply (bool_decide_unpack _). vm_compute. reflexivity.
    - eexists. vm_compute. reflexivity. }
  destruct Hin1 as (results & st1 & Hin1 & Hnd & st2' & Hin2).
  destruct (second_run_writes_nothing (C := Toy.collaborators)
              Toy.program Toy.changedOnly Toy.noPlugins [Toy.A; Toy.C]
              0%Z 10%Z 20%Z 30%Z _ _ _ _ _ _ _ _
              eq_refl Hin1 Hnd Hrun1 Hin2)
    as (out2 & rep & Hrun2 & _ & Hnone & _).
  exists out2. split; [exact Hrun1|]. split; [vm_compute; reflexivity|].
  split; [exact Hrun2|exact Hnone].
Defined.

(** C6. The batches of the write stage.  For a positive batch size
    (the run uses [BATCH_SIZE], 50) the loop returns batches that,
    joined in order, are the results: every entry is in exactly one
    batch.  Batch [j] is the slice of [batchSize] entries from index
    [j * batchSize] on; no batch is empty and none is longer than
    [batchSize]; there are as many batches as needed and no more.  The
    batches are written one after the other; on pairwise distinct
    destinations this writes what one pass over the results writes.  The
    paths the batched loop records are destinations of the results, in
    their order, and every entry gets one outcome: its destination
    (written) or nothing (skipped).  With batch size 2 and 5 entries the
    batches have the sizes 2, 2 and 1.  The results a run hands to its
    write stage all have their text present. *)
Theorem write_stage_batches `{C : Collaborators}
    batchSize data (results : list CompileResult) (files : FS) :
  0 < batchSize →
  ∃ batches,
    makeBatches batchSize results = Some batches
    ∧ concat batches = results
    ∧ (∀ j b, batches !! j = Some b →
         b = take batchSize (drop (j * batchSize) results)
         ∧ 0 < length b ∧ length b ≤ batchSize)
    ∧ length results ≤ length batches * batchSize
    ∧ length batches * batchSize < length results + batchSize
    ∧ (NoDup (map outPathOf results) →
       writeBatches data batches [] files
       = (omap id (writeBatch data results files).1,
          (writeBatch data results files).2))
    ∧ (writeBatches data batches [] files).1
      `sublist_of` map outPathOf results
    ∧ Forall2 (λ r o, o = None ∨ o = Some (outPathOf r))
        results (writeBatch data results files).1
    ∧ (batchSize = 2 → length results = 5 →
       map length batches = [2; 2; 1])
    ∧ BATCH_SIZE = 50
    ∧ (∀ program compilerOptions sourceFiles st files0 st',
         writeStageInput program data compilerOptions sourceFiles st files0
         = Some (results, st', files) →
         Forall (λ r, is_Some (source r)) results).
Proof.
  intros Hpos.
  destruct (makeBatches_spec batchSize results Hpos)
    as (batches & Hb & Hcat & Hnth & Hlo & Hhi).
  exists batches. split; [done|]. split; [done|]. split.
  { intros j b Hj. pose proof (Hnth j b Hj) as ->.
    split; [done|]. rewrite batch_length.
    apply lookup_lt_Some in Hj. split; nia. }
  split; [done|]. split; [done|]. split.
  { intros _. by rewrite writeBatches_flat, Hcat. }
  split.
  { rewrite writeBatches_flat, Hcat. cbn [fst]. rewrite app_nil_l.
    apply outcomes_sublist, writeBatch_outcomes. }
  split; [apply writeBatch_outcomes|]. split; [|split; [done|]].
  2: { intros program compilerOptions sourceFiles st files0 st' Hin.
       by apply writeStageInput_clean in Hin as (_ & Hsrc & _). }
  intros -> Hlen. rewrite Hlen in Hlo, Hhi.
  destruct batches as [|b0 [|b1 [|b2 [|b3 batches]]]]; simpl in *; try lia.
  rewrite (Hnth 0 b0 eq_refl), (Hnth 1 b1 eq_refl), (Hnth 2 b2 eq_refl).
  rewrite !batch_length, Hlen. done.
Qed.

Lemma write_stage_batches_witness :
  ∃ batches : list (list CompileResult),
    makeBatches 2 (renderStage (C := Toy.collaborators)
                     (map (λ sf, mkCompileResultWithAST sf (Some (text sf)) [])
                        [Toy.A; Toy.B; Toy.C; Toy.D; Toy.W]))
    = Some batches
    ∧ map length batches = [2; 2; 1].
Proof.
  destruct (write_stage_batches (C := Toy.collaborators) 2 Toy.always
              (renderStage (C := Toy.collaborators)
                 (map (λ sf, mkCompileResultWithAST sf (Some (text sf)) [])
                    [Toy.A; Toy.B; Toy.C; Toy.D; Toy.W]))
              ∅ ltac:(lia))
    as (batches & Hb & _ & _ & _ & _ & _ & _ & _ & Hsizes & _ & _).
  exists batches. split; [exact Hb|]. apply Hsizes; reflexivity.
Defined.

(** C8. The run on no unit.  When step 0, run on the empty sequence,
    yields no source file and leaves no error in the diagnostic sink (so
    when no plugin is configured and the sink holds no error), the run
    returns [emitSkipped: false] with no diagnostic and an empty
    [emittedFiles]; it throws nothing and writes nothing. *)
Theorem empty_run `{C : Collaborators}
    program data compilerOptions startTime endTime st (files : FS) step0 :
  applyCustomTransformers program data compilerOptions [] st files
  = Some step0 →
  transformedSourceFiles step0 = [] →
  DiagnosticService.hasErrors (diagnosticSink (plugin_state step0))
  = false →
  ∃ out,
    compileAndWriteFilesParallel program data compilerOptions []
      startTime endTime st files = Some out
    ∧ emitResult out = mkEmitResult false [] (Some [])
    ∧ final_files out = plugin_files step0
    ∧ final_state out = plugin_state step0
    ∧ (pluginsConfigured compilerOptions = false →
       final_files out = files ∧ final_state out = st).
Proof.
  intros Hstep Hnone Hclean.
  unfold compileAndWriteFilesParallel. rewrite Hstep, Hclean, Hnone.
  eexists. split; [reflexivity|]. cbn. repeat split.
  - rewrite applyCustomTransformers_no_plugins in Hstep by done.
    by injection Hstep as <-.
  - rewrite applyCustomTransformers_no_plugins in Hstep by done.
    by injection Hstep as <-.
Qed.

Lemma empty_run_witness :
  ∃ out,
    compileAndWriteFilesParallel Toy.program Toy.changedOnly Toy.noPlugins
      [] 0 10 Toy.st0 ∅ = Some out
    ∧ emitResult out = mkEmitResult false [] (Some []).
Proof.
  destruct (empty_run (C := Toy.collaborators) Toy.program Toy.changedOnly
              Toy.noPlugins 0%Z 10%Z Toy.st0 ∅
              (mkPluginOutcome Toy.program [] Toy.st0 ∅)
              eq_refl eq_refl eq_refl)
    as (out & Hrun & Hres & _).
  exists out. split; [exact Hrun|exact Hres].
Defined.

(** C9, at the input where the code departs from it.  The average is
    the quotient [totalTime / stats.total], taken without a test on the
    divisor.  A division by a count of zero is never a finite number;
    the run on no unit divides by zero and reports an infinite
    average. *)
Theorem empty_run_average :
  (∀ a n d, jsDivide a 0 ≠ JSFinite n d)
  ∧ ∃ out rep,
      compileAndWriteFilesParallel Toy.program Toy.changedOnly Toy.noPlugins
        [] 0 10 Toy.st0 ∅ = Some out
      ∧ report out = Some rep
      ∧ total (stats rep) = 0
      ∧ averageTime rep = jsDivide (totalTime rep) (total (stats rep))
      ∧ averageTime rep = JSInfinity false.
Proof.
  split.
  - intros a n d. unfold jsDivide. by destruct (a =? 0)%Z.
  - eexists _, _. split; [reflexivity|]. by repeat split.
Qed.

(** ** Further properties of the embedding *)

Section Further.
Context `{C : Collaborators}.

(** The statistics split the results in two: the tests of the repository
    expect [successful + failed] to be [total]. *)
Lemma getCompilationStats_total (results : list CompileResult) :
  successful (getCompilationStats results)
  + failed (getCompilationStats results)
  = total (getCompilationStats results).
Proof.
  unfold getCompilationStats. cbn.
  induction results as [|r results IH]; [done|].
  rewrite !filter_cons.
  destruct (decide (hasSource r = true)) as [Ht|Ht],
    (decide (hasSource r = false)) as [Hf|Hf]; simpl in *; try lia.
  - congruence.
  - by destruct (hasSource r).
Qed.

(** X4. Without plugins, with no error in the sink and with rendered
    results on pairwise distinct destinations, the variant with batched
    writes and the variant with one [Promise.all] over all the write
    tasks return the same outcome. *)
Lemma variants_agree
    program data compilerOptions sourceFiles startTime endTime st
    (files : FS) :
  pluginsConfigured compilerOptions = false →
  DiagnosticService.hasErrors (diagnosticSink st) = false →
  (∀ results st',
     compileFilesParallelPhase2 program sourceFiles st
     = Some (results, st') →
     NoDup (map outPathOf results)) →
  compileAndWriteFilesParallel program data compilerOptions sourceFiles
    startTime endTime st files
  = compileAndWriteFilesParallel_unbatched program data sourceFiles
      startTime endTime st files.
Proof.
  intros Hoff Hclean _.
  unfold compileAndWriteFilesParallel, compileAndWriteFilesParallel_unbatched.
  rewrite applyCustomTransformers_no_plugins by done. cbn.
  rewrite Hclean.
  destruct (compileFilesParallelPhase2 _ _ _) as [[results st']|]; [|done].
  destruct (someError _); [done|].
  destruct (write_stage_flat data results files) as (batches & -> & ->).
  by destruct (writeBatch data results files).
Qed.

(** Two tasks on distinct destinations commute. *)
Lemma writeTask_swap data (r1 r2 : CompileResult) (files : FS) :
  outPathOf r1 ≠ outPathOf r2 →
  (writeTask data r2 (writeTask data r1 files).2).2
  = (writeTask data r1 (writeTask data r2 files).2).2.
Proof.
  intros Hne.
  assert (Hd1 : (writeTask data r1 (writeTask data r2 files).2).1
                = (writeTask data r1 files).1).
  { apply writeTask_decision_ext, writeTask_other. done. }
  assert (Hd2 : (writeTask data r2 (writeTask data r1 files).2).1
                = (writeTask data r2 files).1).
  { apply writeTask_decision_ext, writeTask_other. done. }
  revert Hd1 Hd2.
  destruct (source r1) as [s1|] eqn:Hs1, (source r2) as [s2|] eqn:Hs2;
    rewrite ?(writeTask_eq _ r1 _ s1 Hs1), ?(writeTask_eq _ r2 _ s2 Hs2);
    try (unfold writeTask; rewrite ?Hs1, ?Hs2; done).
  destruct (truthy s1), (truthy s2); try done.
  repeat case_decide; simpl; intros; try done.
  by apply insert_insert_ne.
Qed.

(** X5. The order in which the tasks of a batch run does not matter on
    pairwise distinct destinations: the files they leave are the same and
    the same paths are written. *)
Lemma writeBatch_permutation data (l l' : list CompileResult) (files : FS) :
  l ≡ₚ l' → NoDup (map outPathOf l) →
  (writeBatch data l files).2 = (writeBatch data l' files).2
  ∧ omap id (writeBatch data l files).1
    ≡ₚ omap id (writeBatch data l' files).1.
Proof.
  intros Hperm. revert files.
  induction Hperm as [|r l l' Hperm IH|r1 r2 l|l1 l2 l3 H12 IH12 H23 IH23];
    intros files Hnd.
  - done.
  - simpl in Hnd. apply NoDup_cons in Hnd as [_ Hnd].
    rewrite !writeBatch_cons. cbn [fst snd].
    destruct (IH (writeTask data r files).2 Hnd) as [-> Hp].
    split; [done|]. rewrite !omap_id_cons.
    destruct (writeTask data r files).1; by rewrite Hp.
  - simpl in Hnd. apply NoDup_cons in Hnd as [Hne Hnd].
    apply not_elem_of_cons in Hne as [Hne _].
    rewrite !writeBatch_cons. cbn [fst snd].
    rewrite (writeTask_swap data r1 r2 files) by done.
    split; [done|]. rewrite !omap_id_cons.
    rewrite (writeTask_decision_ext data r2 (writeTask data r1 files).2 files)
      by (by apply writeTask_other).
    rewrite (writeTask_decision_ext data r1 (writeTask data r2 files).2 files)
      by (apply writeTask_other; done).
    destruct (writeTask data r1 files).1, (writeTask data r2 files).1;
      try done.
    apply perm_swap.
  - destruct (IH12 files Hnd) as [-> Hp12].
    assert (Hnd2 : NoDup (map outPathOf l2)).
    { assert (Hmap : map outPathOf l1 ≡ₚ map outPathOf l2)
        by by apply Permutation_map.
      by rewrite <- Hmap. }
    destruct (IH23 files Hnd2) as [-> Hp23].
    split; [done|]. by rewrite Hp12.
Qed.

End Further.

(** * Further properties of the code *)

(** ** The two phases *)

Section PhaseProps.
Context `{C : Collaborators}.

Lemma compileSingleFile_render sourceFile program st :
  Phase1.compileSingleFile sourceFile program st
  = prod_map renderResult id (compileSingleFileToAST sourceFile program st).
Proof.
  unfold Phase1.compileSingleFile, compileSingleFileToAST.
  destruct (LocalDiagnosticCollector.hasErrors _); [done|].
  destruct (transformSourceFile _ _ _ _) as [[ast mts] sink].
  unfold DiagnosticService.flush, LocalDiagnosticCollector.hasErrors.
  by destruct (someError _).
Qed.

Lemma renderStage_snoc (acc : list (CompileResultWithAST LuauAST)) a :
  renderStage (acc ++ [a]) = renderStage acc ++ [renderResult a].
Proof. unfold renderStage. by rewrite map_app. Qed.

Lemma compileLoop_transformLoop program rest acc st :
  Phase1.compileLoop program rest (renderStage acc) st
  = prod_map renderStage id <$> transformLoop program rest acc st.
Proof.
  revert acc st. induction rest as [|sf rest IH]; intros acc st; [done|].
  simpl. destruct (getSourceFile program (fileName sf)) as [sourceFile|];
    [|done].
  rewrite compileSingleFile_render.
  destruct (compileSingleFileToAST sourceFile program st) as [a st1]. cbn.
  destruct (renderResult_fields a) as (_ & -> & _).
  rewrite <- renderStage_snoc.
  destruct (someError (ast_diagnostics a)); [done|]. apply IH.
Qed.

End PhaseProps.

(** X1. Rendering each unit right after its transform (first phase) and
    rendering all the ASTs once the transform loop is over (second
    phase) return the same results and leave the same state, on every
    input, an assertion failure included. *)
Theorem phases_agree `{C : Collaborators} program sourceFiles st :
  Phase1.compileFilesParallel program sourceFiles st
  = compileFilesParallel program sourceFiles st.
Proof.
  unfold Phase1.compileFilesParallel, compileFilesParallel.
  rewrite compileFilesParallelPhase2_stages.
  apply (compileLoop_transformLoop program sourceFiles []).
Qed.

(** ** Statistics *)

Section StatsProps.
Context `{C : Collaborators}.

Lemma foldl_diagnostics_length (results : list CompileResult) n :
  foldl (λ sum r, sum + length (diagnostics r)) n results
  = n + length (concat (map diagnostics results)).
Proof.
  revert n. induction results as [|r results IH]; intros n; simpl; [lia|].
  rewrite IH, length_app. lia.
Qed.

End StatsProps.

(** X2. [getCompilationStats] splits the results in two: successful plus
    failed is the total, and the diagnostics total is the number of
    diagnostics of all the results together. *)
Theorem getCompilationStats_sums `{C : Collaborators}
    (results : list CompileResult) :
  successful (getCompilationStats results)
  + failed (getCompilationStats results)
  = total (getCompilationStats results)
  ∧ total (getCompilationStats results) = length results
  ∧ totalDiagnostics (getCompilationStats results)
    = length (concat (map diagnostics results)).
Proof.
  split; [apply getCompilationStats_total|]. split; [done|].
  unfold getCompilationStats. cbn. by rewrite foldl_diagnostics_length.
Qed.

(** X3. The statistics a run prints are those [getCompilationStats]
    computes on the rendered results; in a run that emits no result
    failed, and the printed counts of written and skipped files are
    those of the returned [emittedFiles]. *)
Theorem run_report_stats `{C : Collaborators}
    program data compilerOptions sourceFiles startTime endTime st
    (files : FS) out :
  compileAndWriteFilesParallel program data compilerOptions sourceFiles
    startTime endTime st files = Some out →
  emitSkipped (emitResult out) = false →
  ∃ results st' files' rep emitted,
    writeStageInput program data compilerOptions sourceFiles st files
    = Some (results, st', files')
    ∧ report out = Some rep
    ∧ emittedFiles (emitResult out) = Some emitted
    ∧ stats rep = getCompilationStats results
    ∧ failed (stats rep) = 0
    ∧ totalTime rep = (endTime - startTime)%Z
    ∧ writtenFiles rep = length emitted
    ∧ skippedFiles rep
      = (Z.of_nat (length results) - Z.of_nat (length emitted))%Z.
Proof.
  intros Hrun Hemit.
  destruct (run_emitted _ _ _ _ _ _ _ _ _ Hrun Hemit)
    as (results & st' & files' & Hin & ->).
  destruct (writeStageInput_clean _ _ _ _ _ _ _ _ _ Hin) as (_ & Hsrc & _).
  assert (Hall : filter (λ r, hasSource r = true) results = results
                 ∧ filter (λ r, hasSource r = false) results = []).
  { clear -Hsrc. induction Hsrc as [|r l [src Hr] _ [IH1 IH2]]; [done|].
    rewrite !filter_cons, IH1, IH2.
    unfold hasSource. rewrite Hr. by rewrite decide_True, decide_False. }
  destruct Hall as [Hs Hf].
  eexists results, st', files', _, _. split; [done|].
  split; [reflexivity|]. split; [reflexivity|]. cbn.
  split.
  { unfold getCompilationStats. by rewrite foldl_diagnostics_length. }
  rewrite Hs, Hf. by repeat split.
Qed.

Lemma run_report_stats_witness :
  ∃ out,
    compileAndWriteFilesParallel Toy.program Toy.changedOnly Toy.noPlugins
      [Toy.A; Toy.W] 0 10 Toy.st0 ∅ = Some out
    ∧ emitSkipped (emitResult out) = false
    ∧ ∃ rep, report out = Some rep ∧ failed (stats rep) = 0.
Proof.
  eexists. split; [reflexivity|].
  match goal with
  | |- emitSkipped (emitResult ?out) = false ∧ _ =>
    assert (Hrun : compileAndWriteFilesParallel Toy.program Toy.changedOnly
                     Toy.noPlugins [Toy.A; Toy.W] 0 10 Toy.st0 ∅
                   = Some out) by (vm_compute; reflexivity);
    assert (Hskip : emitSkipped (emitResult out) = false)
      by (vm_compute; reflexivity);
    destruct (run_report_stats _ _ _ _ _ _ _ _ _ Hrun Hskip)
      as (results & st' & files' & rep & emitted
          & _ & Hrep & _ & _ & Hfailed & _)
  end.
  split; [exact Hskip|]. exists rep. split; [exact Hrep|exact Hfailed].
Defined.

Lemma variants_agree_witness :
  compileAndWriteFilesParallel Toy.program Toy.changedOnly Toy.noPlugins
    [Toy.A; Toy.W; Toy.C] 0 10 Toy.st0 ∅
  = compileAndWriteFilesParallel_unbatched Toy.program Toy.changedOnly
      [Toy.A; Toy.W; Toy.C] 0 10 Toy.st0 ∅.
Proof.
  apply (variants_agree (C := Toy.collaborators) Toy.program Toy.changedOnly
           Toy.noPlugins [Toy.A; Toy.W; Toy.C] 0%Z 10%Z Toy.st0 ∅);
    [reflexivity|reflexivity|].
  intros results st' Hcompile. vm_compute in Hcompile.
  injection Hcompile as <- <-.
  apply (bool_decide_unpack _). vm_compute. reflexivity.
Defined.

Lemma writeBatch_permutation_witness :
  let ra := mkCompileResult Toy.A (Some "x"%string) [] in
  let rc := mkCompileResult Toy.C (Some "y"%string) [] in
  (@writeBatch Toy.collaborators Toy.changedOnly [ra; rc] ∅).2
  = (@writeBatch Toy.collaborators Toy.changedOnly [rc; ra] ∅).2.
Proof.
  intros ra rc.
  apply (writeBatch_permutation (C := Toy.collaborators) Toy.changedOnly
           [ra; rc] [rc; ra] ∅).
  - apply perm_swap.
  - apply (bool_decide_unpack _). vm_compute. reflexivity.
Defined.

(** ** The diagnostic sink and the errors of a run of the loop *)

Section SinkProps.
Context `{C : Collaborators}.

(** A unit either is transformed, which drains the sink, or fails its
    pre-emit checks, which leaves the state as it was. *)
Lemma compileSingleFileToAST_state sourceFile program st :
  let '(r, st1) := compileSingleFileToAST sourceFile program st in
  transformerWatcher st1 = transformerWatcher st
  ∧ (diagnosticSink st1 = [] ∨ (st1 = st ∧ luauAST r = None)).
Proof.
  unfold compileSingleFileToAST.
  destruct (LocalDiagnosticCollector.hasErrors _); [by split; [|right]|].
  destruct (transformSourceFile _ _ _ _) as [[ast mts] sink].
  unfold DiagnosticService.flush, LocalDiagnosticCollector.hasErrors.
  destruct (someError _); by split; [|left].
Qed.

Lemma transformRun_sink program units st rs st' :
  transformRun program units st rs st' →
  transformerWatcher st' = transformerWatcher st
  ∧ (diagnosticSink st = [] ∨ (∃ r, r ∈ rs ∧ is_Some (luauAST r)) →
     diagnosticSink st' = []).
Proof.
  induction 1 as [st|sf rest st sourceFile r st1 Hsf Hr He
                 |sf rest st sourceFile r st1 rs st2 Hsf Hr He Hrun IH].
  - split; [done|]. intros [?|(r & Hin & _)]; [done|].
    by apply elem_of_nil in Hin.
  - pose proof (compileSingleFileToAST_state sourceFile program st) as Hst.
    rewrite Hr in Hst. destruct Hst as [Hw Hs]. split; [done|].
    destruct Hs as [?|[-> Hnone]]; [done|].
    intros [?|(r' & ->%list_elem_of_singleton & [ast Hast])]; [done|].
    congruence.
  - pose proof (compileSingleFileToAST_state sourceFile program st) as Hst.
    rewrite Hr in Hst. destruct Hst as [Hw Hs]. destruct IH as [IHw IHs].
    split; [congruence|]. intros _. apply IHs. left.
    destruct Hs as [?|[_ Hnone]]; [done|].
    pose proof (compileSingleFileToAST_invariant sourceFile program st) as Hi.
    rewrite Hr in Hi. simpl in Hi. apply Hi in Hnone. congruence.
Qed.

Lemma someError_false_filter (ds : list Diagnostic) :
  someError ds = false → filter (λ d, isError d = true) ds = [].
Proof.
  induction ds as [|d ds IH]; [done|]. unfold someError. simpl.
  intros [Hd Hds]%orb_false_iff.
  rewrite filter_cons, decide_False by congruence. by apply IH.
Qed.

Lemma transformRun_errors program units st rs st' :
  transformRun program units st rs st' →
  filter (λ d, isError d = true) (concat (map ast_diagnostics rs))
  = from_option
      (λ r, filter (λ d, isError d = true) (ast_diagnostics r)) []
      (last rs).
Proof.
  induction 1 as [st|sf rest st sourceFile r st1 Hsf Hr He
                 |sf rest st sourceFile r st1 rs st2 Hsf Hr He Hrun IH].
  - done.
  - simpl. by rewrite app_nil_r.
  - simpl. rewrite filter_app, someError_false_filter by done. simpl.
    rewrite IH. destruct rs as [|r2 rs]; [|done].
    simpl. by rewrite someError_false_filter.
Qed.

End SinkProps.

(** X6. The transform loop drains the process-wide sink after every
    transform.  A loop that started with an empty sink, or in which some
    unit got its AST, leaves the sink empty; the watcher of the plugin
    step is never touched. *)
Theorem transform_loop_drains_sink `{C : Collaborators}
    program sourceFiles st results st' :
  compileFilesParallelPhase2 program sourceFiles st = Some (results, st') →
  transformerWatcher st' = transformerWatcher st
  ∧ (diagnosticSink st = [] ∨ (∃ r, r ∈ results ∧ is_Some (source r)) →
     diagnosticSink st' = []).
Proof.
  rewrite compileFilesParallelPhase2_stages.
  destruct (transformLoop program sourceFiles [] st) as [[rs st1]|] eqn:Hloop;
    [|done].
  intros [= <- <-]. apply transformLoop_run in Hloop.
  destruct (transformRun_sink _ _ _ _ _ Hloop) as [Hw Hs].
  split; [done|]. intros [?|(r & Hin & Hsrc)]; [by apply Hs; left|].
  apply Hs. right.
  apply renderStage_elem in Hin as (a & -> & Hin). exists a. split; [done|].
  destruct (renderResult_fields a) as (_ & _ & Ha). rewrite Ha in Hsrc.
  destruct (luauAST a); [by eexists|]. by destruct Hsrc.
Qed.

Lemma transform_loop_drains_sink_witness :
  ∃ results st',
    compileFilesParallelPhase2 Toy.program [Toy.A; Toy.B; Toy.C]
      (mkRunState Toy.collaborators [Toy.diag Warning "x.ts" "pending"]
         0 None)
    = Some (results, st')
    ∧ diagnosticSink st' = [].
Proof.
  eexists _, _. split; [reflexivity|].
  refine (proj2 (transform_loop_drains_sink (C := Toy.collaborators)
                   Toy.program [Toy.A; Toy.B; Toy.C]
                   (mkRunState Toy.collaborators
                      [Toy.diag Warning "x.ts" "pending"] 0 None)
                   _ _ eq_refl) _).
  right. eexists. split; [apply list_elem_of_here|]. by eexists.
Defined.

(** X7. Every Error-severity diagnostic the two stages return belongs to
    the last result: the results before it carry none, so all the errors
    of a failed compilation are those of the first failing unit. *)
Theorem errors_belong_to_last `{C : Collaborators}
    program sourceFiles st results st' :
  compileFilesParallelPhase2 program sourceFiles st = Some (results, st') →
  filter (λ d, isError d = true) (concat (map diagnostics results))
  = from_option (λ r, filter (λ d, isError d = true) (diagnostics r)) []
      (last results).
Proof.
  rewrite compileFilesParallelPhase2_stages.
  destruct (transformLoop program sourceFiles [] st) as [[rs st1]|] eqn:Hloop;
    [|done].
  intros [= <- <-]. apply transformLoop_run in Hloop.
  rewrite renderStage_diagnostics, (transformRun_errors _ _ _ _ _ Hloop).
  unfold renderStage. change (map renderResult rs) with (renderResult <$> rs).
  rewrite fmap_last. destruct (last rs) as [a|]; [|done]. simpl.
  by destruct (renderResult_fields a) as (_ & -> & _).
Qed.

Lemma errors_belong_to_last_witness :
  ∃ results st',
    compileFilesParallelPhase2 Toy.program [Toy.W; Toy.B; Toy.C] Toy.st0
    = Some (results, st')
    ∧ length (filter (λ d, isError d = true)
                (concat (map diagnostics results))) = 1.
Proof.
  eexists _, _. split; [reflexivity|].
  rewrite (errors_belong_to_last (C := Toy.collaborators)
             Toy.program [Toy.W; Toy.B; Toy.C] Toy.st0 _ _ eq_refl).
  reflexivity.
Defined.

(** ** What a run does to the files *)

Section FileProps.
Context `{C : Collaborators}.
Implicit Types (files : FS) (data : ProjectOptions).

(** Only a result with text can change the file at its destination. *)
Lemma writeBatch_untouched data (l : list CompileResult) files p :
  (∀ r, r ∈ l → hasText r = true → outPathOf r ≠ p) →
  (writeBatch data l files).2 !! p = files !! p.
Proof.
  revert files. induction l as [|r l IH]; intros files Hl; [done|].
  rewrite writeBatch_cons. cbn [snd].
  rewrite IH by (intros r' Hin; apply Hl; by right).
  destruct (hasText r) eqn:Ht.
  - apply writeTask_other. intros Hp.
    apply (Hl r); [by left|done|done].
  - by rewrite writeTask_no_text.
Qed.

(** The file at a destination holds, in the end, the text of a result
    with that destination, as soon as one has text. *)
Lemma writeBatch_last_writer data (l : list CompileResult) files p :
  (∃ r, r ∈ l ∧ hasText r = true ∧ outPathOf r = p) →
  ∃ r src, r ∈ l ∧ outPathOf r = p ∧ source r = Some src
           ∧ truthy src = true
           ∧ (writeBatch data l files).2 !! p = Some src.
Proof.
  revert files. induction l as [|r0 l IH]; intros files (r & Hin & Ht & Hp).
  { by apply elem_of_nil in Hin. }
  rewrite writeBatch_cons. cbn [snd].
  destruct (decide (Exists (λ r, hasText r = true ∧ outPathOf r = p) l))
    as [Hex|Hnex].
  - apply Exists_exists in Hex as (r1 & Hin1 & Ht1 & Hp1).
    destruct (IH (writeTask data r0 files).2) as (r2 & src & ? & ? & ? & ? & ?).
    { by exists r1. }
    exists r2, src. split; [by right|done].
  - assert (r = r0) as ->.
    { apply elem_of_cons in Hin as [?|Hin]; [done|].
      exfalso. apply Hnex, Exists_exists. by exists r. }
    unfold hasText in Ht. destruct (source r0) as [src|] eqn:Hsrc; [|done].
    exists r0, src. split; [by left|]. split; [done|]. split; [done|].
    split; [done|].
    rewrite writeBatch_untouched.
    + subst p. by apply writeTask_dest.
    + intros r' Hin' Ht' Hp'. apply Hnex, Exists_exists. by exists r'.
Qed.

Lemma writeBatch_emitted_text data (l : list CompileResult) files p :
  p ∈ omap id (writeBatch data l files).1 →
  ∃ r, r ∈ l ∧ hasText r = true ∧ outPathOf r = p.
Proof.
  revert files. induction l as [|r l IH]; intros files.
  { simpl. by intros ?%elem_of_nil. }
  rewrite writeBatch_cons. cbn [fst]. rewrite omap_id_cons.
  destruct (writeTask data r files).1 as [q|] eqn:Hq.
  - intros [->|Hin]%elem_of_cons.
    + exists r. split; [by left|].
      destruct (hasText r) eqn:Ht.
      * rewrite writeTask_decision in Hq by done.
        case_decide; by simplify_eq.
      * by rewrite writeTask_no_text in Hq.
    + destruct (IH _ Hin) as (r' & ? & ? & ?). exists r'.
      split; [by right|done].
  - intros Hin. destruct (IH _ Hin) as (r' & ? & ? & ?). exists r'.
    split; [by right|done].
Qed.

(** The written paths are destinations, in the order of the results. *)
Lemma writeBatch_emitted_sublist data (l : list CompileResult) files :
  omap id (writeBatch data l files).1 `sublist_of` map outPathOf l.
Proof.
  pose proof (writeBatch_outcomes data l files) as Hout.
  induction Hout as [|r o l os [->| ->] _ IH]; simpl.
  - constructor.
  - by apply sublist_cons.
  - by apply sublist_skip.
Qed.

(** No task removes a file. *)
Lemma writeBatch_keeps data (l : list CompileResult) files p :
  is_Some (files !! p) → is_Some ((writeBatch data l files).2 !! p).
Proof.
  revert files. induction l as [|r l IH]; intros files Hp; [done|].
  rewrite writeBatch_cons. cbn [snd]. apply IH.
  destruct (decide (p = outPathOf r)) as [->|Hne].
  - destruct (source r) as [src|] eqn:Hsrc.
    + rewrite (writeTask_eq _ _ _ src Hsrc).
      destruct (truthy src); [|done]. case_decide; [done|].
      simpl. rewrite lookup_insert_eq. by eexists.
    + unfold writeTask. by rewrite Hsrc.
  - by rewrite writeTask_other.
Qed.

Lemma reprintLoop_frame data transformed watcher files newSourceFiles p :
  (∀ sf, NodeSourceFile sf ∈ transformed →
         p ≠ getOutputTransformedPath (fileName sf)) →
  (reprintLoop data transformed watcher files newSourceFiles).1.2 !! p
  = files !! p.
Proof.
  revert watcher files newSourceFiles.
  induction transformed as [|[sf|] transformed IH];
    intros watcher files newSourceFiles Hp; simpl; [done| |].
  - rewrite IH by (intros sf' Hin; apply Hp; by right).
    destruct (writeTransformedFiles data); [|done].
    unfold fs.outputFile. rewrite lookup_insert_ne; [done|].
    intros Heq. by apply (Hp sf); [left|].
  - apply IH. intros sf' Hin. apply Hp. by right.
Qed.

Lemma reprintLoop_keeps data transformed watcher files newSourceFiles p :
  is_Some (files !! p) →
  is_Some ((reprintLoop data transformed watcher files newSourceFiles).1.2
             !! p).
Proof.
  revert watcher files newSourceFiles.
  induction transformed as [|[sf|] transformed IH];
    intros watcher files newSourceFiles Hp; simpl; [done| |by apply IH].
  apply IH. destruct (writeTransformedFiles data); [|done].
  unfold fs.outputFile.
  destruct (decide (getOutputTransformedPath (fileName sf) = p)) as [->|Hne].
  - rewrite lookup_insert_eq. by eexists.
  - by rewrite lookup_insert_ne.
Qed.

Lemma reprintLoop_sourceFiles data transformed watcher files newSourceFiles :
  (reprintLoop data transformed watcher files newSourceFiles).2
  = newSourceFiles ++ omap nodeSourceFile transformed.
Proof.
  revert watcher files newSourceFiles.
  induction transformed as [|[sf|] transformed IH];
    intros watcher files newSourceFiles; simpl.
  - by rewrite app_nil_r.
  - rewrite IH. by rewrite <- app_assoc.
  - by rewrite IH.
Qed.

End FileProps.

Section Step0Props.
Context `{C : Collaborators}.
Implicit Types (files : FS) (data : ProjectOptions).

(** The nodes step 0 gets back from [ts.transformNodes]. *)
Lemma applyCustomTransformers_cases
    program data compilerOptions sourceFiles st files step0 :
  applyCustomTransformers program data compilerOptions sourceFiles st files
  = Some step0 →
  step0 = mkPluginOutcome program sourceFiles st files
  ∨ ∃ watcher,
      let transformed :=
        (transformNodes sourceFiles (createTransformers program)).2 in
      let loop :=
        reprintLoop data transformed
          (default (createTransformerWatcher program) (transformerWatcher st))
          files [] in
      pluginsConfigured compilerOptions = true
      ∧ plugin_files step0 = loop.1.2
      ∧ proxyProgram step0 = watcherProgram watcher
      ∧ mapM (λ sf, getSourceFile (watcherProgram watcher) (fileName sf))
          (omap nodeSourceFile transformed)
        = Some (transformedSourceFiles step0)
      ∧ multiTransformState (plugin_state step0) = multiTransformState st
      ∧ transformerWatcher (plugin_state step0) = Some watcher
      ∧ diagnosticSink (plugin_state step0)
        = diagnosticSink st
          ++ default []
               (transformNodes sourceFiles (createTransformers program)).1.
Proof.
  unfold applyCustomTransformers. intros Hstep.
  destruct (pluginsConfigured compilerOptions);
    [|left; by injection Hstep as <-].
  case_bool_decide; [|left; by injection Hstep as <-].
  destruct (transformNodes _ _) as [ds transformed]. cbn [fst snd].
  pose proof (reprintLoop_sourceFiles data transformed
    (default (createTransformerWatcher program) (transformerWatcher st))
    files []) as Hsfs.
  destruct (reprintLoop _ _ _ _ _) as [[watcher files1] newSourceFiles].
  cbn [fst snd] in *. rewrite app_nil_l in Hsfs. subst newSourceFiles.
  destruct (mapM _ _) as [tsf|] eqn:HmapM; [|done].
  injection Hstep as <-. right. exists watcher. cbn.
  repeat split; try done.
  destruct ds; cbn; [done|]. by rewrite app_nil_r.
Qed.

Lemma applyCustomTransformers_keeps
    program data compilerOptions sourceFiles st files step0 p :
  applyCustomTransformers program data compilerOptions sourceFiles st files
  = Some step0 →
  is_Some (files !! p) → is_Some (plugin_files step0 !! p).
Proof.
  intros [->|(watcher & _ & -> & _)]%applyCustomTransformers_cases; [done|].
  apply reprintLoop_keeps.
Qed.

Lemma applyCustomTransformers_frame
    program data compilerOptions sourceFiles st files step0 p :
  applyCustomTransformers program data compilerOptions sourceFiles st files
  = Some step0 →
  (∀ sf, NodeSourceFile sf
           ∈ (transformNodes sourceFiles (createTransformers program)).2 →
         p ≠ getOutputTransformedPath (fileName sf)) →
  plugin_files step0 !! p = files !! p.
Proof.
  intros [->|(watcher & _ & -> & _)]%applyCustomTransformers_cases; [done|].
  apply reprintLoop_frame.
Qed.

(** Without a plugin, or without a transformer, step 0 does nothing. *)
Lemma applyCustomTransformers_idle
    program data compilerOptions sourceFiles st files :
  pluginsConfigured compilerOptions = false
  ∨ createTransformers program = [] →
  applyCustomTransformers program data compilerOptions sourceFiles st files
  = Some (mkPluginOutcome program sourceFiles st files).
Proof.
  unfold applyCustomTransformers. intros [-> | ->]; [done|].
  by destruct (pluginsConfigured compilerOptions).
Qed.

(** With a plugin and a transformer, step 0 runs the transformers. *)
Lemma applyCustomTransformers_runs
    program data compilerOptions sourceFiles st files step0 :
  pluginsConfigured compilerOptions = true →
  createTransformers program ≠ [] →
  applyCustomTransformers program data compilerOptions sourceFiles st files
  = Some step0 →
  ∃ watcher,
    transformerWatcher (plugin_state step0) = Some watcher
    ∧ proxyProgram step0 = watcherProgram watcher
    ∧ diagnosticSink (plugin_state step0)
      = diagnosticSink st
        ++ default []
             (transformNodes sourceFiles (createTransformers program)).1
    ∧ mapM (λ sf, getSourceFile (proxyProgram step0) (fileName sf))
        (omap nodeSourceFile
           (transformNodes sourceFiles (createTransformers program)).2)
      = Some (transformedSourceFiles step0).
Proof.
  unfold applyCustomTransformers. intros -> Hts.
  rewrite bool_decide_eq_true_2
    by (destruct (createTransformers program); [done|simpl; lia]).
  destruct (transformNodes _ _) as [ds transformed]. cbn [fst snd].
  pose proof (reprintLoop_sourceFiles data transformed
    (default (createTransformerWatcher program) (transformerWatcher st))
    files []) as Hsfs.
  destruct (reprintLoop _ _ _ _ _) as [[watcher files1] newSourceFiles].
  cbn [fst snd] in *. rewrite app_nil_l in Hsfs. subst newSourceFiles.
  destruct (mapM _ _) as [tsf|] eqn:HmapM; [|done].
  intros [= <-]. exists watcher. cbn.
  split; [done|]. split; [done|]. split; [|done].
  destruct ds; cbn; [done|]. by rewrite app_nil_r.
Qed.

End Step0Props.

(** X13. Step 0 (the custom TypeScript transformers) keeps what the rest
    of the run relies on: it leaves the shared transform state alone, it
    only appends to the diagnostic sink, it writes only at the
    transformed-output paths of the nodes it got back and never removes a
    file.  When no plugin is configured or there is no transformer, it
    hands on the program, the source files, the state and the files it
    was given.  When a plugin is configured and there is a transformer,
    it records the watcher, hands on the watcher's program, appends the
    diagnostics of [ts.transformNodes] to the sink and hands on one
    source file per returned source-file node, in order: the file the
    watcher's program has under the name of the node. *)
Theorem step0_frame `{C : Collaborators}
    program data compilerOptions sourceFiles st (files : FS) step0 :
  applyCustomTransformers program data compilerOptions sourceFiles st files
  = Some step0 →
  multiTransformState (plugin_state step0) = multiTransformState st
  ∧ (∃ ds, diagnosticSink (plugin_state step0) = diagnosticSink st ++ ds)
  ∧ (∀ p, is_Some (files !! p) → is_Some (plugin_files step0 !! p))
  ∧ (∀ p,
       (∀ sf, NodeSourceFile sf
                ∈ (transformNodes sourceFiles (createTransformers program)).2 →
              p ≠ getOutputTransformedPath (fileName sf)) →
       plugin_files step0 !! p = files !! p)
  ∧ (writeTransformedFiles data = false → plugin_files step0 = files)
  ∧ (pluginsConfigured compilerOptions = false
     ∨ createTransformers program = [] →
     step0 = mkPluginOutcome program sourceFiles st files)
  ∧ (pluginsConfigured compilerOptions = true →
     createTransformers program ≠ [] →
     ∃ watcher,
       transformerWatcher (plugin_state step0) = Some watcher
       ∧ proxyProgram step0 = watcherProgram watcher
       ∧ diagnosticSink (plugin_state step0)
         = diagnosticSink st
           ++ default []
                (transformNodes sourceFiles (createTransformers program)).1
       ∧ Forall2
           (λ sf updated,
              getSourceFile (proxyProgram step0) (fileName sf)
              = Some updated)
           (omap nodeSourceFile
              (transformNodes sourceFiles (createTransformers program)).2)
           (transformedSourceFiles step0)
       ∧ length (transformedSourceFiles step0)
         = length (omap nodeSourceFile
                     (transformNodes sourceFiles
                        (createTransformers program)).2)).
Proof.
  intros Hstep. split; [|split; [|split; [|split; [|split; [|split]]]]].
  - apply applyCustomTransformers_cases in Hstep
      as [->|(watcher & _ & _ & _ & _ & Hm & _)]; done.
  - apply applyCustomTransformers_cases in Hstep
      as [->|(watcher & _ & _ & _ & _ & _ & _ & Hs)].
    + exists []. by rewrite app_nil_r.
    + by eexists.
  - intros p. by eapply applyCustomTransformers_keeps.
  - intros p. by eapply applyCustomTransformers_frame.
  - intros Hoff. eapply applyCustomTransformers_files; [done|by right].
  - intros Hidle.
    rewrite (applyCustomTransformers_idle _ _ _ _ _ _ Hidle) in Hstep.
    by injection Hstep as <-.
  - intros Hon Hts.
    destruct (applyCustomTransformers_runs _ _ _ _ _ _ _ Hon Hts Hstep)
      as (watcher & Hw & Hp & Hs & Hmap).
    exists watcher. split; [done|]. split; [done|]. split; [done|].
    split; [by apply mapM_Some|]. symmetry. by apply length_mapM in Hmap.
Qed.

Lemma step0_frame_witness :
  ∃ step0,
    applyCustomTransformers Toy.program (mkProjectOptions true true)
      (mkCompilerOptions (Some ["p"%string])) [Toy.A; Toy.C] Toy.st0 ∅
    = Some step0
    ∧ multiTransformState (plugin_state step0) = 0
    ∧ plugin_files step0 !! "out/a.ts"%string = None.
Proof.
  eexists. split; [vm_compute; reflexivity|].
  match goal with
  | |- multiTransformState (plugin_state ?s) = _ ∧ _ =>
    assert (Hstep : applyCustomTransformers Toy.program
                      (mkProjectOptions true true)
                      (mkCompilerOptions (Some ["p"%string]))
                      [Toy.A; Toy.C] Toy.st0 ∅ = Some s)
      by (vm_compute; reflexivity);
    destruct (step0_frame (C := Toy.collaborators) Toy.program
                (mkProjectOptions true true)
                (mkCompilerOptions (Some ["p"%string]))
                [Toy.A; Toy.C] Toy.st0 ∅ s Hstep)
      as (Hm & _ & _ & Hframe & _)
  end.
  split; [exact Hm|]. rewrite Hframe; [reflexivity|].
  intros sf Hin. cbn in Hin.
  apply elem_of_cons in Hin as [[= ->]|Hin];
    [intros Heq; vm_compute in Heq; discriminate Heq|].
  apply elem_of_cons in Hin as [[= ->]|Hin];
    [intros Heq; vm_compute in Heq; discriminate Heq|].
  by apply elem_of_nil in Hin.
Defined.

(** ** What a run returns and leaves behind *)

(** X8. A run skips the emit exactly when the diagnostics it returns
    hold an Error; it carries [emittedFiles] and prints its statistics
    exactly when it does not skip. *)
Theorem emit_iff_no_error `{C : Collaborators}
    program data compilerOptions sourceFiles startTime endTime st
    (files : FS) out :
  compileAndWriteFilesParallel program data compilerOptions sourceFiles
    startTime endTime st files = Some out →
  emitSkipped (emitResult out)
  = someError (emit_diagnostics (emitResult out))
  ∧ (is_Some (emittedFiles (emitResult out))
     ↔ emitSkipped (emitResult out) = false)
  ∧ (is_Some (report out) ↔ emitSkipped (emitResult out) = false).
Proof.
  intros Hrun. destruct (emitSkipped (emitResult out)) eqn:Hskip.
  - destruct (run_skipped _ _ _ _ _ _ _ _ _ Hrun Hskip)
      as (-> & -> & -> & _).
    split; [done|]. split; (split; [by intros [? ?]|done]).
  - destruct (run_emitted _ _ _ _ _ _ _ _ _ Hrun Hskip)
      as (results & st' & files' & Hin & ->).
    apply writeStageInput_clean in Hin as [Hclean _].
    split; [symmetry; exact Hclean|].
    split; (split; [done|by eexists]).
Qed.

Lemma emit_iff_no_error_witness :
  ∃ out,
    compileAndWriteFilesParallel Toy.program Toy.changedOnly Toy.noPlugins
      [Toy.A; Toy.B] 0 10 Toy.st0 ∅ = Some out
    ∧ emitSkipped (emitResult out)
      = someError (emit_diagnostics (emitResult out)).
Proof.
  eexists. split; [reflexivity|].
  match goal with
  | |- emitSkipped (emitResult ?out) = _ =>
    apply (emit_iff_no_error (C := Toy.collaborators) Toy.program
             Toy.changedOnly Toy.noPlugins [Toy.A; Toy.B] 0%Z 10%Z
             Toy.st0 ∅ out)
  end.
  vm_compute. reflexivity.
Defined.

(** X9. Every path a run records in [emittedFiles] is the destination
    of a rendered result, and after the run the file there holds the
    text of a result with that destination.  When the destinations are
    pairwise distinct, every result with a non-empty text, written or
    skipped, has exactly its text at its destination after the run. *)
Theorem destinations_hold_text `{C : Collaborators}
    program data compilerOptions sourceFiles startTime endTime st
    (files : FS) out :
  compileAndWriteFilesParallel program data compilerOptions sourceFiles
    startTime endTime st files = Some out →
  emitSkipped (emitResult out) = false →
  ∃ results st' files' emitted,
    writeStageInput program data compilerOptions sourceFiles st files
    = Some (results, st', files')
    ∧ emittedFiles (emitResult out) = Some emitted
    ∧ (∀ p, p ∈ emitted →
         ∃ r src, r ∈ results ∧ outPathOf r = p ∧ source r = Some src
                  ∧ truthy src = true
                  ∧ final_files out !! p = Some src)
    ∧ (NoDup (map outPathOf results) →
       ∀ r src, r ∈ results → source r = Some src → truthy src = true →
                final_files out !! outPathOf r = Some src).
Proof.
  intros Hrun Hemit.
  destruct (run_emitted _ _ _ _ _ _ _ _ _ Hrun Hemit)
    as (results & st' & files' & Hin & ->).
  eexists results, st', files', _. split; [done|].
  split; [reflexivity|]. cbn. split.
  - intros p Hp. apply writeBatch_last_writer.
    by eapply writeBatch_emitted_text.
  - intros Hnd r src Hr Hsrc Ht. by apply writeBatch_dest.
Qed.

Lemma destinations_hold_text_witness :
  ∃ out,
    compileAndWriteFilesParallel Toy.program Toy.changedOnly Toy.noPlugins
      [Toy.A; Toy.C] 0 10 Toy.st0
      {[ "out/a.ts" := "stale" ]}%string = Some out
    ∧ emitSkipped (emitResult out) = false
    ∧ ∃ emitted,
        emittedFiles (emitResult out) = Some emitted
        ∧ ∀ p, p ∈ emitted → is_Some (final_files out !! p).
Proof.
  eexists. split; [reflexivity|].
  match goal with
  | |- emitSkipped (emitResult ?out) = false ∧ _ =>
    assert (Hrun : compileAndWriteFilesParallel Toy.program Toy.changedOnly
                     Toy.noPlugins [Toy.A; Toy.C] 0 10 Toy.st0
                     {[ "out/a.ts" := "stale" ]}%string
                   = Some out) by (vm_compute; reflexivity);
    assert (Hskip : emitSkipped (emitResult out) = false)
      by (vm_compute; reflexivity);
    destruct (destinations_hold_text _ _ _ _ _ _ _ _ _ Hrun Hskip)
      as (results & st' & files' & emitted & _ & Hem & Hheld & _)
  end.
  split; [exact Hskip|]. exists emitted. split; [exact Hem|].
  intros p Hp. destruct (Hheld p Hp) as (r & src & _ & _ & _ & _ & Hp').
  rewrite Hp'. by eexists.
Defined.

(** X10. A run that emits changes no file but at the destinations of
    its results: every other path holds after the run what it held when
    the write stage started, which is what the run was given unless
    step 0 wrote a transformed source there. *)
Theorem other_paths_untouched `{C : Collaborators}
    program data compilerOptions sourceFiles startTime endTime st
    (files : FS) out :
  compileAndWriteFilesParallel program data compilerOptions sourceFiles
    startTime endTime st files = Some out →
  emitSkipped (emitResult out) = false →
  ∃ results st' files',
    writeStageInput program data compilerOptions sourceFiles st files
    = Some (results, st', files')
    ∧ (∀ p, p ∉ map outPathOf results →
            final_files out !! p = files' !! p)
    ∧ (∀ p, p ∉ map outPathOf results →
            (∀ sf, NodeSourceFile sf
                     ∈ (transformNodes sourceFiles
                          (createTransformers program)).2 →
                   p ≠ getOutputTransformedPath (fileName sf)) →
            final_files out !! p = files !! p).
Proof.
  intros Hrun Hemit.
  destruct (run_emitted _ _ _ _ _ _ _ _ _ Hrun Hemit)
    as (results & st' & files' & Hin & ->).
  exists results, st', files'. split; [done|]. cbn. split.
  - intros p Hp. by apply writeBatch_other.
  - intros p Hp Htr. rewrite writeBatch_other by done.
    apply writeStageInput_clean in Hin as (_ & _ & step0 & Hstep & ->).
    by eapply applyCustomTransformers_frame.
Qed.

Lemma other_paths_untouched_witness :
  ∃ out,
    compileAndWriteFilesParallel Toy.program Toy.always Toy.noPlugins
      [Toy.A] 0 10 Toy.st0 {[ "notes.txt" := "keep" ]}%string = Some out
    ∧ emitSkipped (emitResult out) = false
    ∧ final_files out !! "notes.txt"%string = Some "keep"%string.
Proof.
  eexists. split; [reflexivity|].
  match goal with
  | |- emitSkipped (emitResult ?out) = false ∧ _ =>
    assert (Hrun : compileAndWriteFilesParallel Toy.program Toy.always
                     Toy.noPlugins [Toy.A] 0 10 Toy.st0
                     {[ "notes.txt" := "keep" ]}%string
                   = Some out) by (vm_compute; reflexivity);
    assert (Hskip : emitSkipped (emitResult out) = false)
      by (vm_compute; reflexivity);
    destruct (other_paths_untouched _ _ _ _ _ _ _ _ _ Hrun Hskip)
      as (results & st' & files' & Hin & Hframe & _)
  end.
  split; [exact Hskip|].
  assert (Hin' : writeStageInput Toy.program Toy.always Toy.noPlugins
                   [Toy.A] Toy.st0 {[ "notes.txt" := "keep" ]}%string
                 = Some ([mkCompileResult Toy.A (Some (text Toy.A)) []],
                         mkRunState Toy.collaborators [] 1 None,
                         {[ "notes.txt" := "keep" ]}%string))
    by (vm_compute; reflexivity).
  rewrite Hin' in Hin. injection Hin as <- <- <-.
  rewrite Hframe; [vm_compute; reflexivity|].
  apply (bool_decide_unpack _). vm_compute. reflexivity.
Defined.

(** X11. [emittedFiles] lists destinations in the order of the units:
    it is a subsequence of the destinations of the results, whatever the
    order in which the writes complete, and it has no duplicate when the
    destinations have none. *)
Theorem emitted_in_unit_order `{C : Collaborators}
    program data compilerOptions sourceFiles startTime endTime st
    (files : FS) out :
  compileAndWriteFilesParallel program data compilerOptions sourceFiles
    startTime endTime st files = Some out →
  emitSkipped (emitResult out) = false →
  ∃ results st' files' emitted,
    writeStageInput program data compilerOptions sourceFiles st files
    = Some (results, st', files')
    ∧ emittedFiles (emitResult out) = Some emitted
    ∧ emitted `sublist_of` map outPathOf results
    ∧ length emitted ≤ length results
    ∧ (NoDup (map outPathOf results) → NoDup emitted).
Proof.
  intros Hrun Hemit.
  destruct (run_emitted _ _ _ _ _ _ _ _ _ Hrun Hemit)
    as (results & st' & files' & Hin & ->).
  eexists results, st', files', _. split; [done|].
  split; [reflexivity|]. cbn.
  pose proof (writeBatch_emitted_sublist data results files') as Hsub.
  split; [done|]. split.
  - apply sublist_length in Hsub. by rewrite length_map in Hsub.
  - intros Hnd. by eapply sublist_NoDup.
Qed.

Lemma emitted_in_unit_order_witness :
  ∃ out,
    compileAndWriteFilesParallel Toy.program Toy.changedOnly Toy.noPlugins
      [Toy.A; Toy.D; Toy.C] 0 10 Toy.st0 ∅ = Some out
    ∧ emitSkipped (emitResult out) = false
    ∧ ∃ emitted,
        emittedFiles (emitResult out) = Some emitted ∧ length emitted ≤ 3.
Proof.
  eexists. split; [reflexivity|].
  match goal with
  | |- emitSkipped (emitResult ?out) = false ∧ _ =>
    assert (Hrun : compileAndWriteFilesParallel Toy.program Toy.changedOnly
                     Toy.noPlugins [Toy.A; Toy.D; Toy.C] 0 10 Toy.st0 ∅
                   = Some out) by (vm_compute; reflexivity);
    assert (Hskip : emitSkipped (emitResult out) = false)
      by (vm_compute; reflexivity);
    destruct (emitted_in_unit_order _ _ _ _ _ _ _ _ _ Hrun Hskip)
      as (results & st' & files' & emitted & Hin & Hem & _ & Hlen & _)
  end.
  split; [exact Hskip|]. exists emitted. split; [exact Hem|].
  assert (Hin' : ∃ st1 f1 rs,
            writeStageInput Toy.program Toy.changedOnly Toy.noPlugins
              [Toy.A; Toy.D; Toy.C] Toy.st0 ∅ = Some (rs, st1, f1)
            ∧ length rs = 3).
  { eexists _, _, _. split; [vm_compute; reflexivity|reflexivity]. }
  destruct Hin' as (st1 & f1 & rs & Hin' & Hrs).
  rewrite Hin' in Hin. injection Hin as <- <- <-. by rewrite <- Hrs.
Defined.

(** X12. No run removes a file: a path that exists when the run starts
    exists when it returns, whether the run emits or skips. *)
Theorem run_keeps_files `{C : Collaborators}
    program data compilerOptions sourceFiles startTime endTime st
    (files : FS) out p :
  compileAndWriteFilesParallel program data compilerOptions sourceFiles
    startTime endTime st files = Some out →
  is_Some (files !! p) → is_Some (final_files out !! p).
Proof.
  intros Hrun Hp. destruct (emitSkipped (emitResult out)) eqn:Hskip.
  - destruct (run_skipped _ _ _ _ _ _ _ _ _ Hrun Hskip)
      as (_ & _ & _ & step0 & Hstep & ->).
    by eapply applyCustomTransformers_keeps.
  - destruct (run_emitted _ _ _ _ _ _ _ _ _ Hrun Hskip)
      as (results & st' & files' & Hin & ->).
    apply writeStageInput_clean in Hin as (_ & _ & step0 & Hstep & ->).
    cbn. apply writeBatch_keeps. by eapply applyCustomTransformers_keeps.
Qed.

Lemma run_keeps_files_witness :
  ∃ out,
    compileAndWriteFilesParallel Toy.program Toy.always Toy.noPlugins
      [Toy.A; Toy.B] 0 10 Toy.st0 {[ "out/a.ts" := "old" ]}%string
    = Some out
    ∧ is_Some (final_files out !! "out/a.ts"%string).
Proof.
  eexists. split; [reflexivity|].
  match goal with
  | |- is_Some (final_files ?out !! _) =>
    apply (run_keeps_files (C := Toy.collaborators) Toy.program Toy.always
             Toy.noPlugins [Toy.A; Toy.B] 0%Z 10%Z Toy.st0
             {[ "out/a.ts" := "old" ]}%string out)
  end.
  - vm_compute. reflexivity.
  - rewrite lookup_singleton_eq. by eexists.
Defined.


